(** * Cultivar Labs: a shallow embedding of the game engines of [app.py]

    The engines ([BreedingEngine], [FacilityEngine], [CuringEngine],
    [MarketEngine]) are Python code that mutates shared objects held in
    lists and in Streamlit's [session_state].  We model them over an
    explicit heap of Python objects (strains, batches, grow rooms, the
    genetics dictionaries and the [parent_ids] lists), threaded through a
    state-and-exception monad: a raised Python exception keeps the state
    reached at the point of raising, as the interpreter does.

    Python floats are modelled by exact rationals [Q]; Python [int(x)]
    truncates towards zero; [random.random()] reads the next value of the
    generator's stream (a value in [0,1)). *)

From Stdlib Require Import ZArith QArith Qround Qminmax Lqa String List Lia.
From stdpp Require Import base gmap strings pretty.

Open Scope Z_scope.

(** ** Python values and objects *)

Definition loc := positive.

(** Python exceptions the engines can raise. [HeapTypeError] is the
    model's own: a location holding an object of another class, which a
    Python reference can never do. *)
Inductive exn :=
  | KeyError
  | StopIteration
  | AttributeError
  | IndexError
  | HeapTypeError.

(** [@dataclass class Strain]; [genetics] and [parent_ids] are references
    to a dict and a list object. *)
Record Strain := mkStrain {
  s_name : string;
  s_id : string;
  s_genetics : loc;
  s_potency : Z;
  s_yield_amount : Z;
  s_generation : Z;
  s_parents_text : string;
  s_parent_ids : loc;
  s_is_proven : bool;
  s_is_sequenced : bool;
  s_stock_standard : Z;
  s_stock_artisanal : Z
}.

(** [@dataclass class Batch]. *)
Record Batch := mkBatch {
  b_id : string;
  b_strain_id : string;
  b_strain_name : string;
  b_amount : Z;
  b_harvest_season : Z;
  b_status : string;
  b_seasons_remaining : Z;
  b_method : string
}.

(** [@dataclass class GrowRoom]. *)
Record GrowRoom := mkGrowRoom {
  r_id : Z;
  r_strain_id : option string;
  r_strain_name : option string;
  r_substrate : option string;
  r_nutrient : option string
}.

(** A genetics dict [Dict[str, Tuple[str, str]]]. *)
Abbreviation Genetics := (gmap string (string * string)).

Inductive obj :=
  | OStrain (s : Strain)
  | OBatch (b : Batch)
  | ORoom (r : GrowRoom)
  | ODict (d : Genetics)
  | OList (l : list string).

(** The [random] module's generator: [rnd] is the stream of values
    [random.random()] returns from the current seed, [rpos] how far it has
    been read; [seeded a] is the stream [random.seed(a)] starts; [urandom]
    is the operating system's entropy ([random.seed()] without argument and
    [uuid.uuid4()] draw from it). *)
Record Rng := mkRng {
  seeded : Z -> nat -> Q;
  rnd : nat -> Q;
  rpos : nat;
  urandom : nat -> Z;
  upos : nat
}.

Record State := mkState {
  heap : gmap loc obj;
  rng : Rng;
  session_batches : list loc
}.

Definition set_heap (h : gmap loc obj) (σ : State) : State :=
  mkState h (rng σ) (session_batches σ).
Definition set_rng (g : Rng) (σ : State) : State :=
  mkState (heap σ) g (session_batches σ).
Definition set_session_batches (bs : list loc) (σ : State) : State :=
  mkState (heap σ) (rng σ) bs.

(** ** The state-and-exception monad *)

Definition M (A : Type) := State -> (exn + A) * State.

Definition ret {A} (x : A) : M A := fun σ => (inr x, σ).
Definition bind {A B} (m : M A) (k : A -> M B) : M B :=
  fun σ => match m σ with
           | (inl e, σ') => (inl e, σ')
           | (inr x, σ') => k x σ'
           end.
Definition raise {A} (e : exn) : M A := fun σ => (inl e, σ).

Notation "'let!' x := m 'in' k" := (bind m (fun x => k))
  (at level 200, x name, m at level 100, k at level 200).
Notation "m ;; k" := (bind m (fun _ => k)) (at level 100, right associativity).

Definition modify (f : State -> State) : M unit := fun σ => (inr tt, f σ).

Definition load (l : loc) : M obj :=
  fun σ => match heap σ !! l with
           | Some o => (inr o, σ)
           | None => (inl HeapTypeError, σ)
           end.
Definition store (l : loc) (o : obj) : M unit :=
  modify (fun σ => set_heap (<[l := o]> (heap σ)) σ).
Definition alloc (o : obj) : M loc :=
  fun σ => let l := fresh (dom (heap σ)) in
           (inr l, set_heap (<[l := o]> (heap σ)) σ).

Definition load_strain (l : loc) : M Strain :=
  let! o := load l in
  match o with OStrain s => ret s | _ => raise HeapTypeError end.
Definition load_batch (l : loc) : M Batch :=
  let! o := load l in
  match o with OBatch b => ret b | _ => raise HeapTypeError end.
Definition load_room (l : loc) : M GrowRoom :=
  let! o := load l in
  match o with ORoom r => ret r | _ => raise HeapTypeError end.
Definition load_dict (l : loc) : M Genetics :=
  let! o := load l in
  match o with ODict d => ret d | _ => raise HeapTypeError end.

(** [d[k]] on a dict: [KeyError] when absent. *)
Definition getitem {V} (d : gmap string V) (k : string) : M V :=
  match d !! k with Some v => ret v | None => raise KeyError end.
Definition getitem_opt {V} (d : gmap string V) (k : option string) : M V :=
  match k with Some k => getitem d k | None => raise KeyError end.

Fixpoint filterM {A} (p : A -> M bool) (xs : list A) : M (list A) :=
  match xs with
  | [] => ret []
  | x :: xs => let! b := p x in
               let! ys := filterM p xs in
               ret (if b then x :: ys else ys)
  end.

(** ** Python builtins *)

(** [int(x)] on a float: truncation towards zero. *)
Definition py_int (q : Q) : Z := Z.quot (Qnum q) (Zpos (Qden q)).

(** [x in (a, b)] on a pair of strings. *)
Definition in_pair (x : string) (p : string * string) : bool :=
  String.eqb x p.1 || String.eqb x p.2.

(** [tuple(sorted((a, b)))] for two strings (code point order). *)
Definition sorted_pair (a b : string) : string * string :=
  match String.compare b a with
  | Lt => (b, a)
  | _ => (a, b)
  end.

Definition Qltb (x y : Q) : bool := negb (Qle_bool y x).

(** Python's [round(x, 2)]: nearest multiple of 0.01, ties to even. *)
Definition round2 (x : Q) : Q :=
  let y := (x * 100)%Q in
  let f := Qfloor y in
  let fr := (y - inject_Z f)%Q in
  let n := if Qltb fr (1#2) then f
           else if Qltb (1#2) fr then f + 1
           else if Z.even f then f else f + 1 in
  (inject_Z n / 100)%Q.

(** ** The [random] module *)

(** [random.random()]: the next value of the current stream. *)
Definition random_ : M Q :=
  fun σ => let g := rng σ in
           (inr (rnd g (rpos g)),
            set_rng (mkRng (seeded g) (rnd g) (S (rpos g)) (urandom g) (upos g)) σ).

(** [random.uniform(a, b)] is [a + (b - a) * random()]. *)
Definition uniform (a b : Q) : M Q :=
  let! r := random_ in ret (a + (b - a) * r)%Q.

(** [random.choice(seq)]: the element at a uniformly drawn index below
    [len(seq)] ([IndexError] on an empty sequence). *)
Definition choice {A} (xs : list A) : M A :=
  let! r := random_ in
  match nth_error xs (Z.to_nat (Qfloor (r * inject_Z (Z.of_nat (length xs))))) with
  | Some x => ret x
  | None => raise IndexError
  end.

(** [random.seed(a)]. *)
Definition seed (a : Z) : M unit :=
  modify (fun σ => let g := rng σ in
    set_rng (mkRng (seeded g) (seeded g a) 0 (urandom g) (upos g)) σ).

(** [random.seed()]: reseed from the operating system's entropy. *)
Definition seed_os : M unit :=
  fun σ => let g := rng σ in
    (inr tt, set_rng (mkRng (seeded g) (seeded g (urandom g (upos g))) 0
                            (urandom g) (S (upos g))) σ).

Definition hex_digit (n : Z) : string :=
  match String.get (Z.to_nat n) "0123456789abcdef" with
  | Some c => String.String c ""
  | None => ""
  end.

Fixpoint hex_digits (k : nat) (z : Z) : string :=
  match k with
  | O => ""
  | S k => hex_digits k (z / 16) ++ hex_digit (z mod 16)
  end%string.

(** [str(uuid.uuid4())[:8]]: the first four random bytes in hex. *)
Definition uuid4_8 : M string :=
  fun σ => let g := rng σ in
    (inr (hex_digits 8 (urandom g (upos g) mod 2 ^ 32)),
     set_rng (mkRng (seeded g) (rnd g) (rpos g) (urandom g) (S (upos g))) σ).

(** ** Configuration tables *)

Record SubstrateData := mkSubstrate {
  sub_name : string; cost_mult : Q; yield_mult : Q; value_mult : Q }.
Record NutrientData := mkNutrient {
  nut_name : string; nut_cost : Z; yield_bonus : Q; risk : Q }.

(** [SUBSTRATES] (the [desc] texts are left out). *)
Definition SUBSTRATES (k : string) : option SubstrateData :=
  if String.eqb k "soil" then Some (mkSubstrate "Living Soil" 1.0 0.9 1.25)
  else if String.eqb k "hydro" then Some (mkSubstrate "Deep Water Hydro" 1.5 1.3 1.0)
  else if String.eqb k "coco" then Some (mkSubstrate "Coco Coir" 1.2 1.1 1.05)
  else None.

(** [NUTRIENTS]. *)
Definition NUTRIENTS (k : string) : option NutrientData :=
  if String.eqb k "syn" then Some (mkNutrient "Synthetic Salts" 100 0.15 0.10)
  else if String.eqb k "org" then Some (mkNutrient "Organic Teas" 300 0.0 (-0.05))
  else None.

(** [TERPENES[code].split(" ")[0]]. *)
Definition TERPENES (k : string) : option string :=
  if String.eqb k "L" then Some "Limonene"
  else if String.eqb k "M" then Some "Myrcene"
  else if String.eqb k "P" then Some "Pinene"
  else if String.eqb k "C" then Some "Caryophyllene"
  else None.

(** [TABLE[k]] for a constant table, [KeyError] on a missing or [None] key. *)
Definition lookup_table {V} (t : string -> option V) (k : option string) : M V :=
  match k with
  | Some k => match t k with Some v => ret v | None => raise KeyError end
  | None => raise KeyError
  end.

(** ** Strain objects *)

(** [Strain(name=n)]: the default factories run in field order
    ([id], then the [genetics] dict), then the [parent_ids] list. *)
Definition new_strain (n : string) : M loc :=
  let! i := uuid4_8 in
  let! g := alloc (ODict ∅) in
  let! p := alloc (OList []) in
  alloc (OStrain (mkStrain n i g 0 0 1 "Unknown" p true false 0 0)).

Definition update_strain (l : loc) (f : Strain -> Strain) : M unit :=
  let! s := load_strain l in store l (OStrain (f s)).

Definition set_potency (v : Z) (s : Strain) : Strain :=
  mkStrain (s_name s) (s_id s) (s_genetics s) v (s_yield_amount s) (s_generation s)
    (s_parents_text s) (s_parent_ids s) (s_is_proven s) (s_is_sequenced s)
    (s_stock_standard s) (s_stock_artisanal s).
Definition set_yield_amount (v : Z) (s : Strain) : Strain :=
  mkStrain (s_name s) (s_id s) (s_genetics s) (s_potency s) v (s_generation s)
    (s_parents_text s) (s_parent_ids s) (s_is_proven s) (s_is_sequenced s)
    (s_stock_standard s) (s_stock_artisanal s).
Definition set_generation (v : Z) (s : Strain) : Strain :=
  mkStrain (s_name s) (s_id s) (s_genetics s) (s_potency s) (s_yield_amount s) v
    (s_parents_text s) (s_parent_ids s) (s_is_proven s) (s_is_sequenced s)
    (s_stock_standard s) (s_stock_artisanal s).
Definition set_parents_text (v : string) (s : Strain) : Strain :=
  mkStrain (s_name s) (s_id s) (s_genetics s) (s_potency s) (s_yield_amount s)
    (s_generation s) v (s_parent_ids s) (s_is_proven s) (s_is_sequenced s)
    (s_stock_standard s) (s_stock_artisanal s).
Definition set_parent_ids (v : loc) (s : Strain) : Strain :=
  mkStrain (s_name s) (s_id s) (s_genetics s) (s_potency s) (s_yield_amount s)
    (s_generation s) (s_parents_text s) v (s_is_proven s) (s_is_sequenced s)
    (s_stock_standard s) (s_stock_artisanal s).
Definition set_is_proven (v : bool) (s : Strain) : Strain :=
  mkStrain (s_name s) (s_id s) (s_genetics s) (s_potency s) (s_yield_amount s)
    (s_generation s) (s_parents_text s) (s_parent_ids s) v (s_is_sequenced s)
    (s_stock_standard s) (s_stock_artisanal s).
Definition set_is_sequenced (v : bool) (s : Strain) : Strain :=
  mkStrain (s_name s) (s_id s) (s_genetics s) (s_potency s) (s_yield_amount s)
    (s_generation s) (s_parents_text s) (s_parent_ids s) (s_is_proven s) v
    (s_stock_standard s) (s_stock_artisanal s).
Definition set_stock_standard (v : Z) (s : Strain) : Strain :=
  mkStrain (s_name s) (s_id s) (s_genetics s) (s_potency s) (s_yield_amount s)
    (s_generation s) (s_parents_text s) (s_parent_ids s) (s_is_proven s)
    (s_is_sequenced s) v (s_stock_artisanal s).
Definition set_stock_artisanal (v : Z) (s : Strain) : Strain :=
  mkStrain (s_name s) (s_id s) (s_genetics s) (s_potency s) (s_yield_amount s)
    (s_generation s) (s_parents_text s) (s_parent_ids s) (s_is_proven s)
    (s_is_sequenced s) (s_stock_standard s) v.

(** Reading an integer attribute of a [Strain] by name: a dataclass
    instance has exactly its declared fields, any other name raises
    [AttributeError]. *)
Definition strain_int_attr (s : Strain) (a : string) : option Z :=
  if String.eqb a "potency" then Some (s_potency s)
  else if String.eqb a "yield_amount" then Some (s_yield_amount s)
  else if String.eqb a "generation" then Some (s_generation s)
  else if String.eqb a "stock_standard" then Some (s_stock_standard s)
  else if String.eqb a "stock_artisanal" then Some (s_stock_artisanal s)
  else None.

Definition getattr_int (s : Strain) (a : string) : M Z :=
  match strain_int_attr s a with Some v => ret v | None => raise AttributeError end.

(** [Strain.generate_random_stats]. *)
Definition generate_random_stats (l : loc) : M unit :=
  let! s := load_strain l in
  let! d := load_dict (s_genetics s) in
  let s_alleles := default ("t", "t") (d !! "structure") in
  let '(base_pot, base_yld) :=
    if in_pair "T" s_alleles then (50 + 15, 50 - 10) else (50 - 5, 50 + 20) in
  let a_alleles := default ("L", "L") (d !! "aroma") in
  let base_pot := if negb (String.eqb a_alleles.1 a_alleles.2) then base_pot + 5
                  else base_pot in
  let! u1 := uniform (-10) 10 in
  update_strain l (set_potency (Z.max 10 (Z.min 100 (py_int (inject_Z base_pot + u1)%Q)))) ;;
  let! u2 := uniform (-10) 10 in
  update_strain l (set_yield_amount (Z.max 10 (Z.min 100 (py_int (inject_Z base_yld + u2)%Q)))) ;;
  update_strain l (set_is_proven true).

(** [Strain.get_growth_speed]. *)
Definition get_growth_speed (s : Strain) : M Z :=
  let! d := load_dict (s_genetics s) in
  let! p := getitem d "structure" in
  ret (if in_pair "T" p then 30 else 60).

(** [next(s for s in strains if s.id == sid)]. *)
Fixpoint find_strain (strains : list loc) (sid : string) : M loc :=
  match strains with
  | [] => raise StopIteration
  | l :: rest => let! s := load_strain l in
                 if String.eqb (s_id s) sid then ret l else find_strain rest sid
  end.

(** ** [BreedingEngine.breed] *)

(** [child.genetics[key] = tuple(sorted((choice(pa[key]), choice(pb[key]))))]. *)
Definition breed_gene (pa pb child : Strain) (key : string) : M unit :=
  let! ga := load_dict (s_genetics pa) in
  let! pa_key := getitem ga key in
  let! a := choice [pa_key.1; pa_key.2] in
  let! gb := load_dict (s_genetics pb) in
  let! pb_key := getitem gb key in
  let! b := choice [pb_key.1; pb_key.2] in
  let! gc := load_dict (s_genetics child) in
  store (s_genetics child) (ODict (<[key := sorted_pair a b]> gc)).

Definition breed (parent_a parent_b : loc) (name_suggestion : string)
    (upgrades : list string) : M loc :=
  let! c := new_strain name_suggestion in
  let! pa := load_strain parent_a in
  let! pb := load_strain parent_b in
  update_strain c (set_generation (Z.max (s_generation pa) (s_generation pb) + 1)) ;;
  update_strain c (set_parents_text (s_name pa ++ " x " ++ s_name pb)%string) ;;
  let! ids := alloc (OList [s_id pa; s_id pb]) in
  update_strain c (set_parent_ids ids) ;;
  let! child := load_strain c in
  breed_gene pa pb child "structure" ;;
  breed_gene pa pb child "resistance" ;;
  breed_gene pa pb child "aroma" ;;
  update_strain c (set_is_proven false) ;;
  update_strain c (set_potency 0) ;;
  update_strain c (set_yield_amount 0) ;;
  (if existsb (String.eqb "seq") upgrades
   then update_strain c (set_is_sequenced true) else ret tt) ;;
  ret c.

(** ** [FacilityEngine.run_facility] *)

Record CycleResult := mkCycleResult {
  cr_room_id : Z;
  cr_strain : loc;
  cr_yield : Z;
  cr_event : option string;
  cr_proven_now : bool
}.

(** The returned dict: [{"error": msg}] or [{"cost": c, "results": rs}]. *)
Inductive FacilityReport :=
  | ReportError (msg : string)
  | ReportOk (cost : Z) (results : list CycleResult).

(** Step 2: [int((base_run_cost * cost_mult) + cost)]. *)
Definition run_cost (speed : Z) (sub : SubstrateData) (nut : NutrientData) : Z :=
  let days := 100 - speed in
  let base_run_cost := 500 + days * 12 in
  py_int (inject_Z base_run_cost * cost_mult sub + inject_Z (nut_cost nut))%Q.

(** Step 4: [int(yield_amount * 2.5 * variance * yield_mult)]. *)
Definition yield_before_risk (yield_amount : Z) (variance : Q)
    (sub : SubstrateData) (nut : NutrientData) : Z :=
  let base_yield := (inject_Z yield_amount * 2.5)%Q in
  let yield_mult := (yield_mult sub + yield_bonus nut)%Q in
  py_int (base_yield * variance * yield_mult)%Q.

(** Step 5's probability: [max(0.01, base_risk + risk_mod)]. *)
Definition total_risk (is_hardy : bool) (nut : NutrientData)
    (upgrades : list string) : Q :=
  let base_risk := (if is_hardy then 0.05 else 0.25)%Q in
  let risk_mod := if existsb (String.eqb "hepa") upgrades
                  then (risk nut - 0.10)%Q else risk nut in
  Qmax 0.01 (base_risk + risk_mod).

(** One iteration of the loop over the occupied rooms. *)
Definition run_room (strains : list loc) (upgrades : list string)
    (acc : Z * list CycleResult) (rl : loc) : M (Z * list CycleResult) :=
  let '(total_cost, cycle_results) := acc in
  let! room := load_room rl in
  let! sl := match r_strain_id room with
             | Some sid => find_strain strains sid
             | None => raise StopIteration
             end in
  let! sub_data := lookup_table SUBSTRATES (r_substrate room) in
  let! nut_data := lookup_table NUTRIENTS (r_nutrient room) in
  let! strain := load_strain sl in
  let! speed := get_growth_speed strain in
  let total_cost := total_cost + run_cost speed sub_data nut_data in
  let! newly_proven :=
    (if negb (s_is_proven strain)
     then generate_random_stats sl ;; ret true else ret false) in
  let! strain := load_strain sl in
  let! variance := uniform 0.9 1.1 in
  let final_yield := yield_before_risk (s_yield_amount strain) variance sub_data nut_data in
  let! d := load_dict (s_genetics strain) in
  let! res := getitem d "resistance" in
  let is_hardy := in_pair "R" res in
  let! r := random_ in
  let '(final_yield, event_msg) :=
    if Qltb r (total_risk is_hardy nut_data upgrades)
    then let loss := py_int (inject_Z final_yield * 0.4)%Q in
         (final_yield - loss,
          Some ("Room " ++ pretty (r_id room) ++ " (" ++ s_name strain ++
                "): Stress/Burn! Lost " ++ pretty loss ++ "g.")%string)
    else (final_yield, None) in
  (* strain.times_grown += 1 *)
  let! tg := getattr_int strain "times_grown" in
  ret (total_cost,
       cycle_results ++ [mkCycleResult (r_id room) sl final_yield event_msg newly_proven]).

Fixpoint fold_rooms (strains : list loc) (upgrades : list string)
    (acc : Z * list CycleResult) (rooms : list loc) : M (Z * list CycleResult) :=
  match rooms with
  | [] => ret acc
  | rl :: rest => let! acc := run_room strains upgrades acc rl in
                  fold_rooms strains upgrades acc rest
  end.

Definition room_occupied (rl : loc) : M bool :=
  let! r := load_room rl in ret (if r_strain_id r then true else false).

Definition run_facility (rooms strains : list loc) (funds : Z)
    (upgrades : list string) (season : Z) : M FacilityReport :=
  let! occupied := filterM room_occupied rooms in
  match occupied with
  | [] => ret (ReportError "No active rooms.")
  | _ =>
    let! acc := fold_rooms strains upgrades (0, []) occupied in
    let '(total_cost, cycle_results) := acc in
    if funds <? total_cost
    then ret (ReportError ("Need $" ++ pretty total_cost ++ " to run facility.")%string)
    else ret (ReportOk total_cost cycle_results)
  end.

(** ** [CuringEngine] *)

Definition set_status (v : string) (b : Batch) : Batch :=
  mkBatch (b_id b) (b_strain_id b) (b_strain_name b) (b_amount b)
    (b_harvest_season b) v (b_seasons_remaining b) (b_method b).
Definition set_seasons_remaining (v : Z) (b : Batch) : Batch :=
  mkBatch (b_id b) (b_strain_id b) (b_strain_name b) (b_amount b)
    (b_harvest_season b) (b_status b) v (b_method b).

Definition update_batch (l : loc) (f : Batch -> Batch) : M unit :=
  let! b := load_batch l in store l (OBatch (f b)).

(** [CuringEngine.create_batch]. *)
Definition create_batch (strain : loc) (amount season : Z) (room : loc) : M loc :=
  let! r := load_room room in
  let! sub := lookup_table SUBSTRATES (r_substrate r) in
  let sub_name := sub_name sub in
  let! i := uuid4_8 in
  let! s := load_strain strain in
  alloc (OBatch (mkBatch i (s_id s) (s_name s) amount season "Fresh" 0 sub_name)).

Definition is_curing (status : string) : bool :=
  String.eqb status "Curing" || String.eqb status "Deep Curing".
Definition is_terminal (status : string) : bool :=
  String.eqb status "Finished" || String.eqb status "Destroyed".

(** The body of the loop of [process_batches] for one batch [bl]; [events]
    is the list built so far (messages without their emoji prefix). *)
Definition process_batch (strains : list loc) (events : list string) (bl : loc)
    : M (list string) :=
  let! b := load_batch bl in
  if is_curing (b_status b) then
    update_batch bl (set_seasons_remaining (b_seasons_remaining b - 1)) ;;
    let! b := load_batch bl in
    if b_seasons_remaining b <=? 0 then
      let! target := find_strain strains (b_strain_id b) in
      if String.eqb (b_status b) "Deep Curing" then
        let! r := random_ in
        if Qltb r 0.15 then
          update_batch bl (set_status "Destroyed") ;;
          ret (events ++ [("Batch " ++ b_id b ++ " rotted.")%string])
        else
          let! t := load_strain target in
          update_strain target (set_stock_artisanal (s_stock_artisanal t + b_amount b)) ;;
          update_batch bl (set_status "Finished") ;;
          ret events
      else
        let! t := load_strain target in
        update_strain target (set_stock_standard (s_stock_standard t + b_amount b)) ;;
        update_batch bl (set_status "Finished") ;;
        ret events
    else ret events
  else ret events.

Fixpoint fold_batches (strains : list loc) (events : list string) (bs : list loc)
    : M (list string) :=
  match bs with
  | [] => ret events
  | bl :: rest => let! events := process_batch strains events bl in
                  fold_batches strains events rest
  end.

Definition batch_active (bl : loc) : M bool :=
  let! b := load_batch bl in ret (negb (is_terminal (b_status b))).

(** [CuringEngine.process_batches]: the loop, then
    [st.session_state["batches"] = [b for b in batches if b.status not in
    ["Finished", "Destroyed"]]]. *)
Definition process_batches (batches strains : list loc) : M (list string) :=
  let! events := fold_batches strains [] batches in
  let! active := filterM batch_active batches in
  modify (set_session_batches active) ;;
  ret events.

(** ** [MarketEngine] *)

Definition get_market_state (season : Z) : M (Q * string * string) :=
  seed (season + 999) ;;
  let! trending_code := choice ["L"; "M"; "P"; "C"]%string in
  let! trending_name := lookup_table TERPENES (Some trending_code) in
  let! base := uniform 3.0 7.0 in
  seed_os ;;
  ret (base, trending_code, trending_name).

Definition calculate_value (base_price : Q) (strain : loc) (trending_code grade : string)
    : M Q :=
  let! s := load_strain strain in
  let! d := load_dict (s_genetics s) in
  let! aroma := getitem d "aroma" in
  let val := (base_price * (inject_Z (s_potency s) / 50.0))%Q in
  let val := if in_pair trending_code aroma then (val * 1.3)%Q else val in
  let val := if String.eqb aroma.1 aroma.2 then (val * 1.1)%Q else val in
  let val := if String.eqb grade "Fresh" then (val * 0.7)%Q
             else if String.eqb grade "Artisanal" then (val * 1.4)%Q
             else val in
  ret (round2 val).

(** ** [Strain.get_aroma_data] and [Strain.get_structure_label] *)

(** A [FLAVOR_COMBOS] value [{"name": ..., "icon": ...}]. *)
Record FlavorData := mkFlavor { flavor_name : string; flavor_icon : string }.

(** [FLAVOR_COMBOS.get(key)] (all its keys are sorted pairs). *)
Definition FLAVOR_COMBOS (k : string * string) : option FlavorData :=
  if String.eqb k.1 "L" && String.eqb k.2 "L" then Some (mkFlavor "Super Lemon Haze" "ðŸ‹âš¡")
  else if String.eqb k.1 "M" && String.eqb k.2 "M" then Some (mkFlavor "Deep Earth" "ðŸŒðŸ„")
  else if String.eqb k.1 "P" && String.eqb k.2 "P" then Some (mkFlavor "Pure Pine" "ðŸŒ²ðŸ”ï¸")
  else if String.eqb k.1 "C" && String.eqb k.2 "C" then Some (mkFlavor "Black Pepper" "ðŸŒ¶ï¸ðŸ”¥")
  else if String.eqb k.1 "L" && String.eqb k.2 "M" then Some (mkFlavor "Mango Citrus" "ðŸ¥­ðŸ¹")
  else if String.eqb k.1 "L" && String.eqb k.2 "P" then Some (mkFlavor "Lemon Sol" "ðŸ‹ðŸŒ²")
  else if String.eqb k.1 "C" && String.eqb k.2 "L" then Some (mkFlavor "Spicy Lemon" "ðŸ‹ðŸŒ¶ï¸")
  else if String.eqb k.1 "M" && String.eqb k.2 "P" then Some (mkFlavor "Forest Floor" "ðŸŒ²ðŸ‚")
  else if String.eqb k.1 "C" && String.eqb k.2 "M" then Some (mkFlavor "Musky Spice" "ðŸ§‰ðŸŒ¶ï¸")
  else if String.eqb k.1 "C" && String.eqb k.2 "P" then Some (mkFlavor "Peppery Pine" "ðŸŒ²ðŸ”¥")
  else None.

Definition complex_hybrid : FlavorData := mkFlavor "Complex Hybrid" "ðŸ§¬â“".

(** [Strain.get_aroma_data]: [FLAVOR_COMBOS.get(tuple(sorted(self.genetics["aroma"])), ...)]. *)
Definition get_aroma_data (s : Strain) : M FlavorData :=
  let! d := load_dict (s_genetics s) in
  let! a := getitem d "aroma" in
  ret (default complex_hybrid (FLAVOR_COMBOS (sorted_pair a.1 a.2))).

(** [Strain.get_structure_label]. *)
Definition get_structure_label (s : Strain) : M string :=
  let! d := load_dict (s_genetics s) in
  let! p := getitem d "structure" in
  ret (if in_pair "T" p then "Sativa (Tall)" else "Indica (Short)").

(** ** [get_lineage_text] *)

Definition load_list (l : loc) : M (list string) :=
  let! o := load l in
  match o with OList xs => ret xs | _ => raise HeapTypeError end.

(** ["\n"]. *)
Definition nl : string := String (Ascii.ascii_of_nat 10) EmptyString.

(** [s * n] for a string [s] and [n >= 0]. *)
Fixpoint repeat_str (n : nat) (s : string) : string :=
  match n with
  | O => ""
  | S n => s ++ repeat_str n s
  end%string.

(** [{s.id: s for s in all_strains}]: a later strain with the same id
    replaces an earlier one. *)
Fixpoint strain_map_from (m : gmap string loc) (all_strains : list loc)
    : M (gmap string loc) :=
  match all_strains with
  | [] => ret m
  | l :: rest => let! s := load_strain l in strain_map_from (<[s_id s := l]> m) rest
  end.

(** The body of [get_lineage_text(target_strain, all_strains, depth,
    max_depth)]. The recursion stops at [depth >= max_depth]; [fuel]
    counts the levels left, [max_depth - depth] (see [get_lineage_text]),
    so its [O] case is never reached. *)
Fixpoint lineage (fuel : nat) (target : loc) (all_strains : list loc)
    (depth max_depth : Z) : M string :=
  let! t := load_strain target in
  let indent := repeat_str (Z.to_nat depth) "    " in
  let prefix := if 0 <? depth then "â””â”€â”€ " else "" in
  let tree_str := (indent ++ prefix ++ s_name t ++ nl)%string in
  if max_depth <=? depth then ret tree_str else
  match fuel with
  | O => ret tree_str
  | S fuel =>
    let! strain_map := strain_map_from ∅ all_strains in
    let! pids := load_list (s_parent_ids t) in
    (fix go (pids : list string) (tree_str : string) : M string :=
       match pids with
       | [] => ret tree_str
       | pid :: rest =>
         match strain_map !! pid with
         | Some p => let! sub := lineage fuel p all_strains (depth + 1) max_depth in
                     go rest (tree_str ++ sub)%string
         | None => go rest (tree_str ++ indent ++ "    â””â”€â”€ [Unknown]" ++ nl)%string
         end
       end) pids tree_str
  end.

Definition get_lineage_text (target : loc) (all_strains : list loc) (depth max_depth : Z)
    : M string :=
  lineage (Z.to_nat (max_depth - depth)) target all_strains depth max_depth.

(** ** The Streamlit handlers

    The entries of [st.session_state] the handlers use; its ["batches"]
    list is the engines' [session_batches]. A click runs the handler on
    the session and the heap; an exception it raises ends the script run,
    keeping what it had already changed. *)
Record Session := mkSession {
  ss_funds : Z;
  ss_season : Z;
  ss_upgrades : list string;
  ss_rooms : list loc;
  ss_strains : list loc
}.

Definition set_funds (v : Z) (ss : Session) : Session :=
  mkSession v (ss_season ss) (ss_upgrades ss) (ss_rooms ss) (ss_strains ss).
Definition set_upgrades (v : list string) (ss : Session) : Session :=
  mkSession (ss_funds ss) (ss_season ss) v (ss_rooms ss) (ss_strains ss).
Definition set_rooms (v : list loc) (ss : Session) : Session :=
  mkSession (ss_funds ss) (ss_season ss) (ss_upgrades ss) v (ss_strains ss).
Definition set_strains (v : list loc) (ss : Session) : Session :=
  mkSession (ss_funds ss) (ss_season ss) (ss_upgrades ss) (ss_rooms ss) v.

Definition UI (A : Type) := Session * State -> (exn + A) * (Session * State).

Definition ui_ret {A} (x : A) : UI A := fun w => (inr x, w).
Definition ui_bind {A B} (m : UI A) (k : A -> UI B) : UI B :=
  fun w => match m w with
           | (inl e, w') => (inl e, w')
           | (inr x, w') => k x w'
           end.

Notation "'let?' x := m 'in' k" := (ui_bind m (fun x => k))
  (at level 200, x name, m at level 100, k at level 200).

(** An engine call. *)
Definition lift {A} (m : M A) : UI A :=
  fun w => let '(r, σ') := m w.2 in (r, (w.1, σ')).

Definition get_session : UI Session := fun w => (inr w.1, w).
Definition put_session (ss : Session) : UI unit := fun w => (inr tt, (ss, w.2)).

(** [UPGRADES_DB] (the [desc] texts are left out). *)
Record UpgradeData := mkUpgrade { upg_name : string; upg_cost : Z }.

Definition UPGRADES_DB (k : string) : option UpgradeData :=
  if String.eqb k "hepa" then Some (mkUpgrade "HEPA Filtration" 1500)
  else if String.eqb k "seq" then Some (mkUpgrade "Genetic Sequencer" 4000)
  else if String.eqb k "room" then Some (mkUpgrade "Expand Facility" 5000)
  else None.

(** The Store tab: the body of [for uid, data in UPGRADES_DB.items()]
    when the button of [uid] is clicked. Where the tab shows ["Max"] or
    ["Owned"] instead of a button, a click does nothing; so does a key
    the table does not have. *)
Definition store_click (uid : string) : UI unit :=
  match UPGRADES_DB uid with
  | None => ui_ret tt
  | Some data =>
    let? ss := get_session in
    if String.eqb uid "room" then
      let cur := Z.of_nat (length (ss_rooms ss)) in
      if 4 <=? cur then ui_ret tt
      else if 5000 <=? ss_funds ss then
        let? _ := put_session (set_funds (ss_funds ss - 5000) ss) in
        let? r := lift (alloc (ORoom (mkGrowRoom (cur + 1) None None None None))) in
        let? ss := get_session in
        put_session (set_rooms (ss_rooms ss ++ [r]) ss)
      else ui_ret tt
    else if existsb (String.eqb uid) (ss_upgrades ss) then ui_ret tt
    else if upg_cost data <=? ss_funds ss then
      let? _ := put_session (set_funds (ss_funds ss - upg_cost data) ss) in
      let? ss := get_session in
      put_session (set_upgrades (ss_upgrades ss ++ [uid]) ss)
    else ui_ret tt
  end.

(** The Market tab's ["Sell ...g Std"] button, [on_click=lambda s=s, v=val:
    (setattr(s, 'stock_standard', 0), setattr(st.session_state, 'funds',
    st.session_state['funds'] + int(s.stock_standard * v)))]: the items
    of the tuple are evaluated left to right. *)
Definition sell_standard (sl : loc) (v : Q) : UI unit :=
  let? _ := lift (update_strain sl (set_stock_standard 0)) in
  let? ss := get_session in
  let? s := lift (load_strain sl) in
  put_session (set_funds (ss_funds ss + py_int (inject_Z (s_stock_standard s) * v)%Q) ss).

(** The ["Sell ...g Art"] button. *)
Definition sell_artisanal (sl : loc) (v : Q) : UI unit :=
  let? _ := lift (update_strain sl (set_stock_artisanal 0)) in
  let? ss := get_session in
  let? s := lift (load_strain sl) in
  put_session (set_funds (ss_funds ss + py_int (inject_Z (s_stock_artisanal s) * v)%Q) ss).

(** [next(s for s in strains if s.name == n)]. *)
Fixpoint find_strain_by_name (strains : list loc) (n : string) : M loc :=
  match strains with
  | [] => raise StopIteration
  | l :: rest => let! s := load_strain l in
                 if String.eqb (s_name s) n then ret l else find_strain_by_name rest n
  end.

(** The Breed tab's ["Cross ($200)"] button, for the selected parents'
    names [p1], [p2] and the project name [name]. *)
Definition cross_click (p1 p2 name : string) : UI unit :=
  let? ss := get_session in
  if ss_funds ss <? 200 then ui_ret tt
  else
    let? _ := put_session (set_funds (ss_funds ss - 200) ss) in
    let? ss := get_session in
    let? pa := lift (find_strain_by_name (ss_strains ss) p1) in
    let? pb := lift (find_strain_by_name (ss_strains ss) p2) in
    let? child := lift (breed pa pb name (ss_upgrades ss)) in
    let? ss := get_session in
    put_session (set_strains (ss_strains ss ++ [child]) ss).






(** ** A concrete game state

    The two starter strains of the UI (ids ["s1"], ["s2"]), an unproven
    seed ["s3"], one room growing ["s1"] in hydro with synthetic salts,
    and a generator whose streams are constant. *)

Definition gen_of (rs : nat -> Q) : Rng :=
  mkRng (fun _ => rs) rs 0 (fun n => Z.of_nat n) 0.

Definition genes (s r a : string * string) : Genetics :=
  <["structure" := s]> (<["resistance" := r]> (<["aroma" := a]> ∅)).

Definition lemon_sol : Strain :=
  mkStrain "Lemon Sol" "s1" 2%positive 70 45 1 "Unknown" 3%positive true false 0 0.
Definition musky_spice : Strain :=
  mkStrain "Musky Spice" "s2" 5%positive 45 70 1 "Unknown" 6%positive true false 0 0.
Definition seed_pack : Strain :=
  mkStrain "Seed-101" "s3" 9%positive 0 0 2 "Lemon Sol x Musky Spice" 10%positive
    false false 0 0.

Definition room_of (sid : string) : GrowRoom :=
  mkGrowRoom 1 (Some sid) (Some sid) (Some "hydro") (Some "syn").

Definition sample_heap (room_strain : string) (batches : list (loc * Batch))
    : gmap loc obj :=
  foldr (fun '(l, b) h => <[l := OBatch b]> h)
   (list_to_map
     [(1, OStrain lemon_sol);
      (2, ODict (genes ("T", "T") ("r", "r") ("L", "P")));
      (3, OList []);
      (4, OStrain musky_spice);
      (5, ODict (genes ("t", "t") ("R", "R") ("C", "M")));
      (6, OList []);
      (7, ORoom (room_of room_strain));
      (8, OStrain seed_pack);
      (9, ODict (genes ("T", "t") ("R", "r") ("L", "M")));
      (10, OList ["s1"; "s2"]%string)]%positive)
   batches.

Definition sample_state (room_strain : string) (batches : list (loc * Batch))
    (rs : nat -> Q) : State :=
  mkState (sample_heap room_strain batches) (gen_of rs) (map fst batches).

Definition sample_strains : list loc := [1; 4; 8]%positive.

(** * Reasoning about the engines *)

(** ** A Hoare logic over the heap

    [hoare P m Q E]: from a heap satisfying [P], [m] either returns [x]
    in a heap satisfying [Q x], or raises in a heap satisfying [E]. *)
Definition hoare {A} (P : gmap loc obj -> Prop) (m : M A)
    (Q : A -> gmap loc obj -> Prop) (E : gmap loc obj -> Prop) : Prop :=
  forall σ, P (heap σ) ->
    match m σ with
    | (inl _, σ') => E (heap σ')
    | (inr x, σ') => Q x (heap σ')
    end.

(** ** Specification predicates and sample runs *)

(** Operations that leave the heap as it is. *)
Definition heap_ro {A} (m : M A) : Prop := forall σ, heap (snd (m σ)) = heap σ.

Definition raises {A} (m : M A) : Prop := forall σ, exists e σ', m σ = (inl e, σ').

Definition half_stream : nat -> Q := fun _ => (1#2)%Q.

(** Room 7 grows the unproven seed ["s3"]; the facility has no funds. *)
Definition broke_seed_run : (exn + FacilityReport) * State :=
  run_facility [7%positive] sample_strains 0 [] 1 (sample_state "s3" [] half_stream).

(** Room 7 grows the proven ["s1"]; funds are ample. *)
Definition rich_run : (exn + FacilityReport) * State :=
  run_facility [7%positive] sample_strains 100000 [] 1 (sample_state "s1" [] half_stream).

(** The substrate and nutrient of a room, from the tables. *)
Definition hydro_syn_yield (yield_amount : Z) (r : Q) : Z :=
  match SUBSTRATES "hydro", NUTRIENTS "syn" with
  | Some sub, Some nut => yield_before_risk yield_amount (0.9 + (1.1 - 0.9) * r)%Q sub nut
  | _, _ => 0
  end.

(** The unit value as the spec words it: [basePrice * (potency / 50)],
    times 1.3 when the aroma pair holds the trending symbol, times 1.1
    when the aroma pair is homozygous, times the grade multiplier. *)
Definition grade_multiplier (grade : string) : Q :=
  (if String.eqb grade "Fresh" then 0.7
   else if String.eqb grade "Artisanal" then 1.4
   else 1)%Q.

Definition unit_value (base_price : Q) (potency : Z) (aroma : string * string)
    (trending_code grade : string) : Q :=
  (base_price * (inject_Z potency / 50)
   * (if in_pair trending_code aroma then 1.3 else 1)
   * (if String.eqb aroma.1 aroma.2 then 1.1 else 1)
   * grade_multiplier grade)%Q.

Definition keeps {A} (P : gmap loc obj -> Prop) (m : M A) : Prop :=
  hoare P m (fun _ => P) P.

(** What the loop body of [process_batches] does to a batch [b]: the
    batch becomes [b']. *)
Definition batch_tick (b b' : Batch) : Prop :=
  if is_curing (b_status b) then
    let b1 := set_seasons_remaining (b_seasons_remaining b - 1) b in
    if b_seasons_remaining b1 <=? 0 then
      if String.eqb (b_status b) "Deep Curing"
      then b' = set_status "Destroyed" b1 \/ b' = set_status "Finished" b1
      else b' = set_status "Finished" b1
    else b' = b1
  else b' = b.

(** [settled h l]: if [l] holds a curing batch, its counter is at least 1. *)
Definition settled (h : gmap loc obj) (l : loc) : Prop :=
  forall b, h !! l = Some (OBatch b) ->
    is_curing (b_status b) = true -> 1 <= b_seasons_remaining b.

Definition fresh_batch : Batch :=
  mkBatch "b1" "s1" "Lemon Sol" 100 1 "Fresh" 0 "Hydroponics".

Definition curing_batch : Batch :=
  mkBatch "b2" "s1" "Lemon Sol" 100 1 "Curing" 1 "Deep Water Hydro".

Definition deep_batch : Batch :=
  mkBatch "b3" "s1" "Lemon Sol" 100 1 "Deep Curing" 2 "Deep Water Hydro".

(** The sample state with one batch at location 11. *)
Definition batch_state (b : Batch) : State :=
  sample_state "s1" [(11%positive, b)] half_stream.

Definition breed_inv (h0 h : gmap loc obj) : Prop :=
  (forall l, l ∈ dom h0 -> h !! l = h0 !! l) /\
  (forall l s, l ∉ dom h0 -> h !! l = Some (OStrain s) -> s_genetics s ∉ dom h0).

Definition gene_from (da db : Genetics) (key : string) (ck : string * string) : Prop :=
  exists x y a b, da !! key = Some x /\ db !! key = Some y /\
    a ∈ [x.1; x.2] /\ b ∈ [y.1; y.2] /\ ck = sorted_pair a b.

Definition parents_genes (h0 : gmap loc obj) (parent_a parent_b : loc)
    (P : Genetics -> Genetics -> Prop) : Prop :=
  forall spa spb da db,
    h0 !! parent_a = Some (OStrain spa) -> h0 !! s_genetics spa = Some (ODict da) ->
    h0 !! parent_b = Some (OStrain spb) -> h0 !! s_genetics spb = Some (ODict db) ->
    P da db.

Definition child_at (h0 : gmap loc obj) (parent_a parent_b : loc) (keys : list string)
    (c g : loc) (dc : Genetics) (h : gmap loc obj) : Prop :=
  (c ∉ dom h0) /\ (g ∉ dom h0) /\
  (exists sc, h !! c = Some (OStrain sc) /\ s_genetics sc = g) /\
  h !! g = Some (ODict dc) /\
  parents_genes h0 parent_a parent_b
    (fun da db => forall key ck, dc !! key = Some ck -> gene_from da db key ck) /\
  (forall key, key ∈ keys -> is_Some (dc !! key)).

Definition Jg (h0 : gmap loc obj) (parent_a parent_b : loc) (keys : list string) (c g : loc) (h : gmap loc obj) : Prop :=
  exists dc, breed_inv h0 h /\ child_at h0 parent_a parent_b keys c g dc h.

(** Operations that leave [st.session_state["batches"]] as it is. *)
Definition batches_ro {A} (m : M A) : Prop :=
  forall σ, session_batches (snd (m σ)) = session_batches σ.

(** The line [get_lineage_text] writes for a strain named [name] at
    [depth]. *)
Definition lineage_line (name : string) (depth : Z) : string :=
  (repeat_str (Z.to_nat depth) "    " ++ (if (0 <? depth)%Z then "â””â”€â”€ " else "") ++ name ++ nl)%string.

(** The lines [lineage_line name k] for [k = depth, depth + 1, ...,
    depth + n]. *)
Fixpoint lineage_chain (name : string) (depth : Z) (n : nat) : string :=
  match n with
  | O => lineage_line name depth
  | S n => (lineage_line name depth ++ lineage_chain name (depth + 1) n)%string
  end.

(** The invariant the Store tab keeps: funds are not negative, the
    upgrades are distinct and among ["hepa"], ["seq"], there are at most
    four rooms, and the [i]-th room has id [i + 1]. *)
Definition store_ok (ss : Session) (h : gmap loc obj) : Prop :=
  0 <= ss_funds ss /\ NoDup (ss_upgrades ss) /\
  (forall u, u ∈ ss_upgrades ss -> u = "hepa" \/ u = "seq") /\
  (length (ss_rooms ss) <= 4)%nat /\
  (forall i rl, ss_rooms ss !! i = Some rl ->
     exists r, h !! rl = Some (ORoom r) /\ r_id r = Z.of_nat i + 1).

Section Hoare.
Context {A B : Type}.
Implicit Types (P E : gmap loc obj -> Prop).

Lemma hoare_ret P (Q : A -> _) E x :
  (forall h, P h -> Q x h) -> hoare P (ret x) Q E.
Proof. intros HQ σ HP. exact (HQ _ HP). Qed.

Lemma hoare_raise P (Q : A -> _) E e :
  (forall h, P h -> E h) -> hoare P (raise e) Q E.
Proof. intros HE σ HP. exact (HE _ HP). Qed.

Lemma hoare_bind P (m : M A) R (k : A -> M B) Q E :
  hoare P m R E -> (forall x, hoare (R x) (k x) Q E) -> hoare P (bind m k) Q E.
Proof.
  intros Hm Hk σ HP. unfold bind. specialize (Hm σ HP).
  destruct (m σ) as [[e|x] σ']; [exact Hm|]. exact (Hk x σ' Hm).
Qed.

Lemma hoare_conseq P P' (m : M A) Q Q' E E' :
  hoare P' m Q' E' -> (forall h, P h -> P' h) ->
  (forall x h, Q' x h -> Q x h) -> (forall h, E' h -> E h) -> hoare P m Q E.
Proof.
  intros Hm HP HQ HE σ Hσ. specialize (Hm σ (HP _ Hσ)).
  destruct (m σ) as [[e|x] σ']; auto.
Qed.

Lemma hoare_pure P (m : M A) Q E (φ : Prop) :
  (forall h, P h -> φ) -> (φ -> hoare P m Q E) -> hoare P m Q E.
Proof. intros Hφ Hm σ HP. exact (Hm (Hφ _ HP) σ HP). Qed.

Lemma hoare_load P E l :
  (forall h, P h -> E h) ->
  hoare P (load l) (fun o h => P h /\ h !! l = Some o) E.
Proof.
  intros HE σ HP. unfold load. destruct (heap σ !! l) eqn:Hl; auto.
Qed.

Lemma hoare_store P (Q : unit -> _) E l o :
  (forall h, P h -> Q tt (<[l := o]> h)) -> hoare P (store l o) Q E.
Proof. intros HQ σ HP. exact (HQ _ HP). Qed.

Lemma hoare_alloc P Q E o :
  (forall h l, P h -> l ∉ dom h -> Q l (<[l := o]> h)) -> hoare P (alloc o) Q E.
Proof.
  intros HQ σ HP. unfold alloc. simpl. apply HQ; [exact HP|]. apply is_fresh.
Qed.

Lemma hoare_ro P E (m : M A) (φ : A -> gmap loc obj -> Prop) :
  heap_ro m -> (forall h, P h -> E h) ->
  (forall σ x σ', m σ = (inr x, σ') -> P (heap σ) -> φ x (heap σ)) ->
  hoare P m (fun x h => P h /\ φ x h) E.
Proof.
  intros Hro HE Hφ σ HP. specialize (Hro σ).
  destruct (m σ) as [[e|x] σ'] eqn:Hm; simpl in Hro; rewrite Hro; eauto.
Qed.

Lemma heap_ro_ret (x : A) : heap_ro (ret x).
Proof. intros σ. reflexivity. Qed.

Lemma heap_ro_raise e : heap_ro (raise (A:=A) e).
Proof. intros σ. reflexivity. Qed.

End Hoare.

Lemma heap_ro_bind {A B} (m : M A) (k : A -> M B) :
  heap_ro m -> (forall x, heap_ro (k x)) -> heap_ro (bind m k).
Proof.
  intros Hm Hk σ. unfold bind. specialize (Hm σ).
  destruct (m σ) as [[e|x] σ'] eqn:E; simpl in *; [exact Hm|].
  rewrite Hk. exact Hm.
Qed.

Lemma heap_ro_random : heap_ro random_.
Proof. intros σ. reflexivity. Qed.
Lemma heap_ro_uuid : heap_ro uuid4_8.
Proof. intros σ. reflexivity. Qed.
Lemma heap_ro_seed a : heap_ro (seed a).
Proof. intros σ. reflexivity. Qed.
Lemma heap_ro_seed_os : heap_ro seed_os.
Proof. intros σ. reflexivity. Qed.
Lemma heap_ro_load l : heap_ro (load l).
Proof. intros σ. unfold load. destruct (heap σ !! l); reflexivity. Qed.

Create HintDb heap_ro.
#[export] Hint Resolve heap_ro_ret heap_ro_raise heap_ro_random heap_ro_uuid
  heap_ro_seed heap_ro_seed_os heap_ro_load : heap_ro.

Ltac solve_ro :=
  repeat first
    [ apply heap_ro_bind
    | solve [eauto with heap_ro]
    | match goal with
      | |- heap_ro (match ?x with _ => _ end) => destruct x
      | |- heap_ro (if ?b then _ else _) => destruct b
      | |- forall _, _ => intro
      end ].

Lemma heap_ro_load_strain l : heap_ro (load_strain l).
Proof. unfold load_strain. solve_ro. Qed.
Lemma heap_ro_load_batch l : heap_ro (load_batch l).
Proof. unfold load_batch. solve_ro. Qed.
Lemma heap_ro_load_dict l : heap_ro (load_dict l).
Proof. unfold load_dict. solve_ro. Qed.
Lemma heap_ro_load_room l : heap_ro (load_room l).
Proof. unfold load_room. solve_ro. Qed.
Lemma heap_ro_getitem {V} (d : gmap string V) k : heap_ro (getitem d k).
Proof. unfold getitem. solve_ro. Qed.
Lemma heap_ro_lookup_table {V} (t : string -> option V) k : heap_ro (lookup_table t k).
Proof. unfold lookup_table. solve_ro. Qed.
Lemma heap_ro_uniform a b : heap_ro (uniform a b).
Proof. unfold uniform. solve_ro. Qed.
Lemma heap_ro_choice {A} (xs : list A) : heap_ro (choice xs).
Proof. unfold choice. solve_ro. Qed.
Lemma heap_ro_getattr_int s a : heap_ro (getattr_int s a).
Proof. unfold getattr_int. solve_ro. Qed.
Lemma heap_ro_find_strain strains sid : heap_ro (find_strain strains sid).
Proof. induction strains as [|l rest IH]; simpl; solve_ro; auto using heap_ro_load_strain. Qed.

#[export] Hint Resolve heap_ro_load_strain heap_ro_load_batch heap_ro_load_dict
  heap_ro_load_room heap_ro_getitem heap_ro_lookup_table heap_ro_uniform
  heap_ro_choice heap_ro_getattr_int heap_ro_find_strain : heap_ro.

(** Typed loads. *)
Lemma hoare_load_strain P E l :
  (forall h, P h -> E h) ->
  hoare P (load_strain l) (fun s h => P h /\ h !! l = Some (OStrain s)) E.
Proof.
  intros HE. apply hoare_ro; auto using heap_ro_load_strain.
  intros σ x σ' Hm _. unfold load_strain, load, bind in Hm.
  destruct (heap σ !! l) as [[]|]; unfold ret, raise in Hm; simpl in Hm; congruence.
Qed.

Lemma hoare_load_batch P E l :
  (forall h, P h -> E h) ->
  hoare P (load_batch l) (fun b h => P h /\ h !! l = Some (OBatch b)) E.
Proof.
  intros HE. apply hoare_ro; auto using heap_ro_load_batch.
  intros σ x σ' Hm _. unfold load_batch, load, bind in Hm.
  destruct (heap σ !! l) as [[]|]; unfold ret, raise in Hm; simpl in Hm; congruence.
Qed.

Lemma hoare_load_dict P E l :
  (forall h, P h -> E h) ->
  hoare P (load_dict l) (fun d h => P h /\ h !! l = Some (ODict d)) E.
Proof.
  intros HE. apply hoare_ro; auto using heap_ro_load_dict.
  intros σ x σ' Hm _. unfold load_dict, load, bind in Hm.
  destruct (heap σ !! l) as [[]|]; unfold ret, raise in Hm; simpl in Hm; congruence.
Qed.

Lemma hoare_getitem {V} P E (d : gmap string V) k :
  (forall h, P h -> E h) ->
  hoare P (getitem d k) (fun v h => P h /\ d !! k = Some v) E.
Proof.
  intros HE. apply hoare_ro; auto using heap_ro_getitem.
  intros σ x σ' Hm _. unfold getitem, ret, raise in Hm.
  destruct (d !! k); simpl in Hm; congruence.
Qed.

Lemma hoare_choice {A} P E (xs : list A) :
  (forall h, P h -> E h) ->
  hoare P (choice xs) (fun x h => P h /\ x ∈ xs) E.
Proof.
  intros HE. apply hoare_ro; auto using heap_ro_choice.
  intros σ x σ' Hm _. unfold choice, bind, random_ in Hm. simpl in Hm.
  destruct (nth_error xs _) eqn:Hn; unfold ret, raise in Hm; simpl in Hm; [|congruence].
  injection Hm as <- _. apply list_elem_of_In. eapply nth_error_In. exact Hn.
Qed.

Lemma hoare_find_strain P E strains sid :
  (forall h, P h -> E h) ->
  hoare P (find_strain strains sid)
    (fun l h => P h /\ exists s, h !! l = Some (OStrain s) /\ s_id s = sid) E.
Proof.
  intros HE. apply hoare_ro; auto using heap_ro_find_strain.
  intros σ x σ' Hm _. revert σ' Hm.
  induction strains as [|l rest IH]; intros σ' Hm; simpl in Hm; [discriminate|].
  unfold bind, load_strain, load, bind in Hm.
  destruct (heap σ !! l) as [[s| | | |]|] eqn:Hl; unfold raise in Hm; simpl in Hm;
    try discriminate.
  unfold ret in Hm at 1. simpl in Hm.
  destruct (String.eqb_spec (s_id s) sid); [|eauto].
  unfold ret in Hm.
  injection Hm as <- _. eauto.
Qed.

(** Read-modify-write of a strain or a batch object. *)
Lemma hoare_update_strain P (Q : unit -> _) E l f :
  (forall h, P h -> E h) ->
  (forall h s, P h -> h !! l = Some (OStrain s) -> Q tt (<[l := OStrain (f s)]> h)) ->
  hoare P (update_strain l f) Q E.
Proof.
  intros HE HQ. eapply hoare_bind; [apply hoare_load_strain; exact HE|].
  intros s. apply hoare_store. intros h [HP Hl]. auto.
Qed.

Lemma hoare_update_batch P (Q : unit -> _) E l f :
  (forall h, P h -> E h) ->
  (forall h b, P h -> h !! l = Some (OBatch b) -> Q tt (<[l := OBatch (f b)]> h)) ->
  hoare P (update_batch l f) Q E.
Proof.
  intros HE HQ. eapply hoare_bind; [apply hoare_load_batch; exact HE|].
  intros b. apply hoare_store. intros h [HP Hl]. auto.
Qed.

(** ** Computations that always raise *)

Lemma raises_bind_l {A B} (m : M A) (k : A -> M B) : raises m -> raises (bind m k).
Proof. intros Hm σ. destruct (Hm σ) as (e & σ' & H). exists e, σ'. unfold bind. now rewrite H. Qed.

Lemma raises_bind_r {A B} (m : M A) (k : A -> M B) :
  (forall x, raises (k x)) -> raises (bind m k).
Proof.
  intros Hk σ. unfold bind. destruct (m σ) as [[e|x] σ']; [eauto|apply Hk].
Qed.

Lemma raises_raise {A} e : raises (raise (A:=A) e).
Proof. intros σ. eauto. Qed.

(** [strain.times_grown]: [Strain] declares no such field. *)
Lemma getattr_times_grown_raises s : raises (getattr_int s "times_grown").
Proof. unfold getattr_int. simpl. apply raises_raise. Qed.

Lemma run_room_raises strains upgrades acc rl :
  raises (run_room strains upgrades acc rl).
Proof.
  destruct acc as [total_cost cycle_results]. unfold run_room.
  repeat match goal with
         | |- raises (bind (getattr_int _ _) _) =>
             apply raises_bind_l, getattr_times_grown_raises
         | |- raises (match ?x with _ => _ end) => destruct x
         | |- raises (bind _ _) => apply raises_bind_r; intro
         end.
Qed.

Lemma fold_rooms_raises strains upgrades acc rl rest :
  raises (fold_rooms strains upgrades acc (rl :: rest)).
Proof. simpl. apply raises_bind_l, run_room_raises. Qed.

(** ** Arithmetic of [int(x)] *)

Lemma py_int_floor q : (0 <= q)%Q -> py_int q = Qfloor q.
Proof.
  destruct q as [n d]. unfold py_int, Qfloor, Qle. simpl. intros H.
  apply Z.quot_div_nonneg; lia.
Qed.

Lemma py_int_bounds q (lo hi : Z) :
  (0 <= q)%Q -> (inject_Z lo <= q)%Q -> (q < inject_Z (hi + 1))%Q ->
  lo <= py_int q <= hi.
Proof.
  intros H0 Hlo Hhi. rewrite py_int_floor by exact H0. split.
  - rewrite <- (Qfloor_Z lo). apply Qfloor_resp_le. exact Hlo.
  - assert (Hf : (inject_Z (Qfloor q) < inject_Z (hi + 1))%Q).
    { eapply Qle_lt_trans; [apply Qfloor_le | exact Hhi]. }
    rewrite <- Zlt_Qlt in Hf. lia.
Qed.

(** ** The concrete failing runs of [run_facility] *)

(** * The claims *)

(** C1 (code_bug). With total cost above the funds, [run_facility] does
    not return an error result: on a room growing an unproven seed and no
    funds, it raises [AttributeError] (at [strain.times_grown += 1]), and
    before that it has already rolled the seed's stats, so the strain
    object in the strains list is changed ([is_proven] becomes true,
    potency and yield set). *)
Theorem run_facility_insufficient_funds_mutates :
  fst broke_seed_run = inl AttributeError /\
  heap (sample_state "s3" [] half_stream) !! 8%positive = Some (OStrain seed_pack) /\
  heap (snd broke_seed_run) !! 8%positive =
    Some (OStrain (set_is_proven true (set_yield_amount 40 (set_potency 70 seed_pack)))) /\
  s_is_proven seed_pack = false.
Proof. vm_compute. repeat split; reflexivity. Qed.

(** C2 (code_bug). [run_facility] never completes with a report of the
    run: with at least one occupied room every run reaches
    [strain.times_grown += 1], which raises since [Strain] has no field
    [times_grown]; with none it reports "No active rooms.". *)
Theorem run_facility_never_reports_ok rooms strains funds upgrades season σ
    cost results σ' :
  run_facility rooms strains funds upgrades season σ <> (inr (ReportOk cost results), σ').
Proof.
  unfold run_facility, bind.
  destruct (filterM room_occupied rooms σ) as [[e|occupied] σ1]; [discriminate|].
  destruct occupied as [|rl rest]; [unfold ret; discriminate|].
  destruct (fold_rooms_raises strains upgrades (0, []) rl rest σ1) as (e & σ2 & ->).
  discriminate.
Qed.

Lemma run_facility_never_reports_ok_witness :
  run_facility [7%positive] sample_strains 100000 [] 1 (sample_state "s1" [] half_stream)
    <> (inr (ReportOk 0 []), sample_state "s1" [] half_stream).
Proof. apply run_facility_never_reports_ok. Defined.

(** The ample-funds run of the proven starter raises [AttributeError]. *)
Lemma rich_run_raises : fst rich_run = inl AttributeError.
Proof. vm_compute. reflexivity. Qed.

(** C3 (counterexample). A proven strain with [yield_amount = 40], grown
    in hydro with synthetic salts and no upgrades, with the variance draw
    [random() = 1/2] (variance 1.0), has a yield before risk of 145, not
    within [80, 120]. *)
Lemma yield_40_outside_80_120 :
  hydro_syn_yield 40 (1#2) = 145 /\ ~ (80 <= hydro_syn_yield 40 (1#2) <= 120).
Proof.
  assert (E : hydro_syn_yield 40 (1#2) = 145) by (vm_compute; reflexivity).
  rewrite E. split; [reflexivity | lia].
Qed.

(** C3 (amended). For [yield_amount = 40], no upgrades, any substrate and
    nutrient of the tables and any variance draw [r] in [0, 1)
    ([variance = uniform(0.9, 1.1)]), the yield before risk deduction is
    within [81, 159]. *)
Theorem yield_40_within_81_159 sk nk sub nut (r : Q) :
  SUBSTRATES sk = Some sub -> NUTRIENTS nk = Some nut -> (0 <= r < 1)%Q ->
  81 <= yield_before_risk 40 (0.9 + (1.1 - 0.9) * r)%Q sub nut <= 159.
Proof.
  intros Hs Hn [Hr0 Hr1]. unfold SUBSTRATES in Hs. unfold NUTRIENTS in Hn.
  unfold yield_before_risk.
  repeat match goal with
         | H : (if ?b then _ else _) = Some _ |- _ => destruct b; [injection H as <-|]
         | H : None = Some _ |- _ => discriminate H
         end;
  simpl; apply py_int_bounds; unfold Qle, Qlt in *; simpl in *; nia.
Qed.

Lemma yield_40_within_81_159_witness :
  exists sub nut, SUBSTRATES "hydro" = Some sub /\ NUTRIENTS "syn" = Some nut /\
    81 <= yield_before_risk 40 (0.9 + (1.1 - 0.9) * (1#2))%Q sub nut <= 159.
Proof.
  eexists _, _. split; [reflexivity|]. split; [reflexivity|].
  apply (yield_40_within_81_159 "hydro" "syn"); [reflexivity|reflexivity|].
  split; vm_compute; [intros H; discriminate H|reflexivity].
Defined.

(** C6. [get_market_state] reseeds the generator with [season + 999]
    before drawing: two calls with the same season return the same
    [(base, trending_code, trending_name)], whatever the generator's state
    before each call (the process's seeding algorithm [seeded] being the
    same); the call leaves that algorithm as it is. *)
Theorem get_market_state_deterministic season σ1 σ2 :
  seeded (rng σ1) = seeded (rng σ2) ->
  fst (get_market_state season σ1) = fst (get_market_state season σ2) /\
  seeded (rng (snd (get_market_state season σ1))) = seeded (rng σ1).
Proof.
  intros H. cbv [get_market_state seed modify choice random_ lookup_table
    uniform seed_os set_rng]. cbv [bind ret raise]. simpl. rewrite H. split.
  - destruct (nth_error (A:=string) _ _) as [c|]; [|reflexivity]. simpl.
    destruct (TERPENES c); reflexivity.
  - destruct (nth_error (A:=string) _ _) as [c|]; [|reflexivity]. simpl.
    destruct (TERPENES c); reflexivity.
Qed.

Lemma get_market_state_deterministic_witness :
  let σ1 := sample_state "s1" [] half_stream in
  let σ2 := snd (random_ σ1) in
  fst (get_market_state 5 σ1) = fst (get_market_state 5 σ2) /\
  seeded (rng (snd (get_market_state 5 σ1))) = seeded (rng σ1).
Proof. intros σ1 σ2. apply get_market_state_deterministic. reflexivity. Defined.

(** ** [round(x, 2)] and rational equality *)

Lemma Qltb_iff x y : Qltb x y = true <-> (x < y)%Q.
Proof.
  unfold Qltb. rewrite negb_true_iff, <- not_true_iff_false, Qle_bool_iff.
  split; [apply Qnot_le_lt | apply Qlt_not_le].
Qed.

Lemma Qltb_comp x x' y y' : (x == x')%Q -> (y == y')%Q -> Qltb x y = Qltb x' y'.
Proof.
  intros Hx Hy. apply Bool.eq_iff_eq_true. rewrite !Qltb_iff, Hx, Hy. reflexivity.
Qed.

Lemma round2_comp x y : (x == y)%Q -> round2 x = round2 y.
Proof.
  intros H. unfold round2.
  assert (Hf : Qfloor (x * 100) = Qfloor (y * 100)).
  { apply Qfloor_comp. rewrite H. reflexivity. }
  rewrite Hf.
  rewrite (Qltb_comp (x * 100 - inject_Z (Qfloor (y * 100))) (y * 100 - inject_Z (Qfloor (y * 100))) (1#2) (1#2))
    by (rewrite ?H; reflexivity).
  rewrite (Qltb_comp (1#2) (1#2) (x * 100 - inject_Z (Qfloor (y * 100))) (y * 100 - inject_Z (Qfloor (y * 100))))
    by (rewrite ?H; reflexivity).
  reflexivity.
Qed.

(** C8 (counterexample). Lemon Sol (potency 70, aroma (L, P)) at base
    price 4.321, trend C, grade Fresh: [calculate_value] returns 4.23
    (rounded to cents), not [4.321 * 70/50 * 0.7 = 4.23458]. *)
Lemma calculate_value_rounds :
  fst (calculate_value 4.321%Q 1%positive "C" "Fresh" (sample_state "s1" [] half_stream))
    = inr 4.23%Q /\
  ~ (4.23 == unit_value 4.321 70 ("L", "P") "C" "Fresh")%Q.
Proof.
  split; [vm_compute; reflexivity|].
  unfold unit_value, grade_multiplier, in_pair. simpl.
  unfold Qeq. simpl. lia.
Qed.

(** C8 (amended). [calculate_value] returns the spec's unit value rounded
    to two decimals ([round(val, 2)]); the grade multipliers are ordered
    Fresh (0.7) < Standard (1) < Artisanal (1.4). *)
Theorem calculate_value_spec σ base_price l s d aroma trending_code grade :
  heap σ !! l = Some (OStrain s) ->
  heap σ !! s_genetics s = Some (ODict d) ->
  d !! "aroma" = Some aroma ->
  calculate_value base_price l trending_code grade σ
    = (inr (round2 (unit_value base_price (s_potency s) aroma trending_code grade)), σ) /\
  (grade_multiplier "Fresh" < grade_multiplier "Standard" < grade_multiplier "Artisanal")%Q.
Proof.
  intros Hl Hd Ha. split; [|split; reflexivity].
  cbv [calculate_value load_strain load_dict load getitem bind ret raise].
  rewrite Hl. simpl. rewrite Hd. simpl. rewrite Ha. simpl.
  f_equal. f_equal. apply round2_comp.
  unfold unit_value, grade_multiplier.
  destruct (in_pair trending_code aroma), (String.eqb aroma.1 aroma.2),
    (String.eqb grade "Fresh"), (String.eqb grade "Artisanal");
  field.
Qed.

Lemma calculate_value_spec_witness :
  calculate_value 4.321%Q 1%positive "C" "Fresh" (sample_state "s1" [] half_stream)
    = (inr (round2 (unit_value 4.321 70 ("L", "P") "C" "Fresh")),
       sample_state "s1" [] half_stream) /\
  (grade_multiplier "Fresh" < grade_multiplier "Standard" < grade_multiplier "Artisanal")%Q.
Proof.
  apply (calculate_value_spec (sample_state "s1" [] half_stream) 4.321%Q 1%positive lemon_sol
           (genes ("T", "T") ("r", "r") ("L", "P")) ("L", "P"));
    vm_compute; reflexivity.
Defined.

(** ** Frames: what a computation leaves as it is *)

Lemma keeps_bind {A B} P (m : M A) (k : A -> M B) :
  keeps P m -> (forall x, keeps P (k x)) -> keeps P (bind m k).
Proof. intros Hm Hk. eapply hoare_bind; [exact Hm|exact Hk]. Qed.

Lemma keeps_ro {A} P (m : M A) : heap_ro m -> keeps P m.
Proof.
  intros Hro σ HP. specialize (Hro σ). destruct (m σ) as [[e|x] σ']; simpl in Hro;
  rewrite Hro; exact HP.
Qed.

(** A batch object at [bl] survives any update of a strain object and of
    another batch object. *)
Lemma keeps_batch_update_strain bl b l f :
  keeps (fun h => h !! bl = Some (OBatch b)) (update_strain l f).
Proof.
  apply hoare_update_strain; [auto|]. intros h s Hb Hl.
  rewrite lookup_insert_ne; [exact Hb|]. intros ->. congruence.
Qed.

Lemma keeps_batch_update_batch bl b c f :
  c <> bl -> keeps (fun h => h !! bl = Some (OBatch b)) (update_batch c f).
Proof.
  intros Hne. apply hoare_update_batch; [auto|]. intros h b' Hb Hc.
  rewrite lookup_insert_ne by exact Hne. exact Hb.
Qed.

Ltac solve_keeps_with upd :=
  repeat first
    [ upd
    | apply keeps_ro; solve [eauto with heap_ro]
    | apply keeps_bind
    | match goal with
      | |- keeps _ (match ?x with _ => _ end) => destruct x
      | |- keeps _ (if ?b then _ else _) => destruct b
      | |- forall _, _ => intro
      end ].

Ltac solve_keeps :=
  solve_keeps_with ltac:(first [ apply keeps_batch_update_strain
                               | apply keeps_batch_update_batch; assumption ]).

Lemma process_batch_frame strains events c bl b :
  c <> bl -> keeps (fun h => h !! bl = Some (OBatch b)) (process_batch strains events c).
Proof. intros Hne. unfold process_batch. solve_keeps. Qed.

Lemma fold_batches_frame strains events bs bl b :
  bl ∉ bs -> keeps (fun h => h !! bl = Some (OBatch b)) (fold_batches strains events bs).
Proof.
  revert events. induction bs as [|c rest IH]; intros events Hnot; simpl.
  - apply keeps_ro, heap_ro_ret.
  - apply not_elem_of_cons in Hnot as [Hne Hrest].
    apply keeps_bind; [apply process_batch_frame; congruence|]. intros ev. auto.
Qed.

Lemma keeps_weaken {A} P (m : M A) : keeps P m -> hoare P m (fun _ => P) (fun _ => True).
Proof. intros H. eapply hoare_conseq; [exact H| | |]; auto. Qed.

(** ** One curing tick of a batch *)

Lemma hoare_set_batch P bl b f :
  (forall h, P h -> h !! bl = Some (OBatch b)) ->
  hoare P (update_batch bl f) (fun _ h => h !! bl = Some (OBatch (f b))) (fun _ => True).
Proof.
  intros HP. apply hoare_update_batch; [auto|]. intros h b' Hh Hb'.
  rewrite (HP _ Hh) in Hb'. injection Hb' as <-. apply lookup_insert_eq.
Qed.

Lemma hoare_batch_update_strain P bl b l f :
  (forall h, P h -> h !! bl = Some (OBatch b)) ->
  hoare P (update_strain l f) (fun _ h => h !! bl = Some (OBatch b)) (fun _ => True).
Proof.
  intros HP. eapply hoare_conseq; [apply (keeps_batch_update_strain bl b l f)| | |]; auto.
Qed.

Lemma process_batch_step strains events bl b :
  hoare (fun h => h !! bl = Some (OBatch b)) (process_batch strains events bl)
    (fun _ h => exists b', h !! bl = Some (OBatch b') /\ batch_tick b b') (fun _ => True).
Proof.
  unfold process_batch.
  eapply hoare_bind; [apply hoare_load_batch; auto|]. intros b0.
  apply (hoare_pure _ _ _ _ (b0 = b)); [intros h [H1 H2]; congruence|]. intros ->.
  unfold batch_tick. destruct (is_curing (b_status b)) eqn:Hc.
  2: { apply hoare_ret. intros h [H _]. eauto. }
  set (b1 := set_seasons_remaining (b_seasons_remaining b - 1) b).
  eapply hoare_bind.
  { apply (hoare_set_batch _ bl b). intros h [H _]. exact H. }
  intros []. fold b1.
  eapply hoare_bind; [apply hoare_load_batch; auto|]. intros b1'.
  apply (hoare_pure _ _ _ _ (b1' = b1)); [intros h [H1 H2]; congruence|]. intros ->.
  destruct (b_seasons_remaining b1 <=? 0).
  2: { apply hoare_ret. intros h [H _]. eauto. }
  eapply hoare_bind.
  { apply keeps_weaken, keeps_ro, heap_ro_find_strain. }
  intros target. simpl.
  destruct (String.eqb (b_status b) "Deep Curing").
  - eapply hoare_bind; [apply keeps_weaken, keeps_ro, heap_ro_random|]. intros r.
    destruct (Qltb r 0.15).
    + eapply hoare_bind; [apply (hoare_set_batch _ bl b1); intros ? ?; tauto|]. intros [].
      apply hoare_ret. intros h H. eauto.
    + eapply hoare_bind; [apply keeps_weaken, keeps_ro, heap_ro_load_strain|].
      intros t. eapply hoare_bind; [apply (hoare_batch_update_strain _ bl b1); intros ? ?; tauto|].
      intros []. eapply hoare_bind; [apply (hoare_set_batch _ bl b1); intros ? ?; tauto|]. intros [].
      apply hoare_ret. intros h H. eauto.
  - eapply hoare_bind; [apply keeps_weaken, keeps_ro, heap_ro_load_strain|].
    intros t. eapply hoare_bind; [apply (hoare_batch_update_strain _ bl b1); intros ? ?; tauto|].
    intros []. eapply hoare_bind; [apply (hoare_set_batch _ bl b1); intros ? ?; tauto|]. intros [].
    apply hoare_ret. intros h H. eauto.
Qed.

(** ** The loop and the filter of [process_batches] *)

Lemma hoare_run {A} P (m : M A) Q E σ x σ' :
  hoare P m Q E -> P (heap σ) -> m σ = (inr x, σ') -> Q x (heap σ').
Proof. intros H HP Hm. specialize (H σ HP). rewrite Hm in H. exact H. Qed.

Lemma bind_inr_inv {A B} (m : M A) (k : A -> M B) σ y σ'' :
  bind m k σ = (inr y, σ'') -> exists x σ', m σ = (inr x, σ') /\ k x σ' = (inr y, σ'').
Proof.
  unfold bind. destruct (m σ) as [[e|x] σ']; [discriminate|]. eauto.
Qed.

Lemma fold_batches_app strains events xs ys σ :
  fold_batches strains events (xs ++ ys) σ =
  bind (fold_batches strains events xs) (fun ev => fold_batches strains ev ys) σ.
Proof.
  revert events σ. induction xs as [|c xs IH]; intros events σ; simpl; [reflexivity|].
  unfold bind. destruct (process_batch strains events c σ) as [[e|ev] σ1];
    [reflexivity|]. rewrite IH. reflexivity.
Qed.

Lemma filterM_batch_active bs σ act σ' :
  filterM batch_active bs σ = (inr act, σ') ->
  σ' = σ /\
  forall l, l ∈ act <-> l ∈ bs /\
    exists b, heap σ !! l = Some (OBatch b) /\ is_terminal (b_status b) = false.
Proof.
  revert act σ'. induction bs as [|c bs IH]; intros act σ' H; simpl in H.
  - injection H as <- <-. split; [reflexivity|]. intros l. set_solver.
  - unfold bind, batch_active, load_batch, load, bind, ret, raise in H.
    destruct (heap σ !! c) as [[| b | | |]|] eqn:Hc; simpl in H; try discriminate.
    fold (bind (filterM batch_active bs) (fun ys =>
            ret (if negb (is_terminal (b_status b)) then c :: ys else ys))) in H.
    apply bind_inr_inv in H as (ys & σ1 & Hys & H).
    destruct (IH _ _ Hys) as [-> Hiff]. unfold ret in H.
    injection H as <- <-. split; [reflexivity|]. intros l.
    destruct (is_terminal (b_status b)) eqn:Ht; simpl.
    + rewrite Hiff, elem_of_cons. split; [tauto|].
      intros [[->|Hl] Hb]; [|tauto]. destruct Hb as (b' & Hb' & Ht').
      rewrite Hc in Hb'. injection Hb' as <-. congruence.
    + rewrite elem_of_cons, Hiff, elem_of_cons. split.
      * intros [->|[Hl Hb]]; [|tauto]. split; [left; reflexivity|]. eauto.
      * intros [[->|Hl] Hb]; [left; reflexivity|]. right. tauto.
Qed.

Lemma process_batches_inv batches strains σ ev σ' :
  process_batches batches strains σ = (inr ev, σ') ->
  exists σ1, fold_batches strains [] batches σ = (inr ev, σ1) /\
    heap σ' = heap σ1 /\
    (forall l, l ∈ session_batches σ' <-> l ∈ batches /\
       exists b, heap σ1 !! l = Some (OBatch b) /\ is_terminal (b_status b) = false).
Proof.
  unfold process_batches. intros H.
  apply bind_inr_inv in H as (ev1 & σ1 & Hf & H).
  apply bind_inr_inv in H as (act & σ2 & Ha & H).
  apply filterM_batch_active in Ha as [-> Hiff].
  unfold bind, modify, ret in H. injection H as <- <-.
  exists σ1. split; [exact Hf|]. split; [reflexivity|]. exact Hiff.
Qed.

(** A batch listed once is ticked exactly once by the loop. *)
Lemma fold_batches_ticks_once strains batches bl b σ ev σ' :
  NoDup batches -> bl ∈ batches -> heap σ !! bl = Some (OBatch b) ->
  fold_batches strains [] batches σ = (inr ev, σ') ->
  exists b', heap σ' !! bl = Some (OBatch b') /\ batch_tick b b'.
Proof.
  intros Hnd Hin Hb Hf.
  apply list_elem_of_split in Hin as (pre & post & ->).
  apply NoDup_app in Hnd as (_ & Hdisj & Hnd2).
  apply NoDup_cons in Hnd2 as [Hpost _].
  assert (Hpre : bl ∉ pre) by (intros Hp; apply (Hdisj bl Hp); left).
  rewrite fold_batches_app in Hf. apply bind_inr_inv in Hf as (ev1 & σ1 & H1 & Hf).
  simpl in Hf. apply bind_inr_inv in Hf as (ev2 & σ2 & H2 & H3).
  pose proof (hoare_run _ _ _ _ _ _ _ (fold_batches_frame strains [] pre bl b Hpre) Hb H1) as Hb1.
  destruct (hoare_run _ _ _ _ _ _ _ (process_batch_step strains ev1 bl b) Hb1 H2)
    as (b' & Hb2 & Htick).
  exists b'. split; [|exact Htick].
  exact (hoare_run _ _ _ _ _ _ _ (fold_batches_frame strains ev2 post bl b' Hpost) Hb2 H3).
Qed.

Lemma process_batches_ticks_once batches strains σ ev σ' bl b :
  NoDup batches -> bl ∈ batches -> heap σ !! bl = Some (OBatch b) ->
  process_batches batches strains σ = (inr ev, σ') ->
  exists b', heap σ' !! bl = Some (OBatch b') /\ batch_tick b b' /\
    (bl ∈ session_batches σ' <-> is_terminal (b_status b') = false).
Proof.
  intros Hnd Hin Hb Hp.
  destruct (process_batches_inv _ _ _ _ _ Hp) as (σ1 & Hf & Hh & Hs).
  destruct (fold_batches_ticks_once _ _ _ _ _ _ _ Hnd Hin Hb Hf) as (b' & Hb' & Ht).
  exists b'. rewrite Hh. split; [exact Hb'|]. split; [exact Ht|].
  rewrite Hs. split.
  - intros [_ (b'' & Hb'' & Hnt)]. congruence.
  - intros Hnt. eauto.
Qed.

(** C4. Curing timing. A [Curing] batch with remaining 1 is [Finished]
    (and dropped from the active batches) after one call of
    [process_batches]; a [Deep Curing] batch with remaining 2 is still
    [Deep Curing], with remaining 1 and active, after one call, and is
    resolved ([Finished] or [Destroyed], dropped) by the next; a
    [Finished] or [Destroyed] batch is left as it is by any further call.
    (Each part is about one call that returns normally, on a batch listed
    once.) *)
Theorem curing_tick_exact batches strains σ bl b :
  NoDup batches -> bl ∈ batches -> heap σ !! bl = Some (OBatch b) ->
  (b_status b = "Curing" -> b_seasons_remaining b = 1 ->
   forall ev σ', process_batches batches strains σ = (inr ev, σ') ->
   heap σ' !! bl = Some (OBatch (set_status "Finished" (set_seasons_remaining 0 b))) /\
   bl ∉ session_batches σ') /\
  (b_status b = "Deep Curing" -> b_seasons_remaining b = 2 ->
   forall ev σ', process_batches batches strains σ = (inr ev, σ') ->
   heap σ' !! bl = Some (OBatch (set_seasons_remaining 1 b)) /\
   bl ∈ session_batches σ') /\
  (b_status b = "Deep Curing" -> b_seasons_remaining b = 1 ->
   forall ev σ', process_batches batches strains σ = (inr ev, σ') ->
   exists b', heap σ' !! bl = Some (OBatch b') /\
     (b_status b' = "Finished" \/ b_status b' = "Destroyed") /\
     bl ∉ session_batches σ') /\
  (is_terminal (b_status b) = true ->
   forall ev σ', process_batches batches strains σ = (inr ev, σ') ->
   heap σ' !! bl = Some (OBatch b)).
Proof.
  intros Hnd Hin Hb.
  pose proof (process_batches_ticks_once batches strains σ) as T.
  split; [|split; [|split]].
  - intros Hst Hrem ev σ' Hp.
    destruct (T ev σ' bl b Hnd Hin Hb Hp) as (b' & Hb' & Ht & Hs).
    unfold batch_tick, is_curing in Ht. rewrite Hst, Hrem in Ht. simpl in Ht.
    subst b'. split; [exact Hb'|]. rewrite Hs. simpl. intros [=].
  - intros Hst Hrem ev σ' Hp.
    destruct (T ev σ' bl b Hnd Hin Hb Hp) as (b' & Hb' & Ht & Hs).
    unfold batch_tick, is_curing in Ht. rewrite Hst, Hrem in Ht. simpl in Ht.
    subst b'. split; [exact Hb'|]. apply Hs. unfold is_terminal. simpl.
    rewrite Hst. reflexivity.
  - intros Hst Hrem ev σ' Hp.
    destruct (T ev σ' bl b Hnd Hin Hb Hp) as (b' & Hb' & Ht & Hs).
    unfold batch_tick, is_curing in Ht. rewrite Hst, Hrem in Ht. simpl in Ht.
    exists b'. split; [exact Hb'|].
    destruct Ht as [-> | ->]; simpl; (split; [auto|]); rewrite Hs; simpl; intros [=].
  - intros Hst ev σ' Hp.
    destruct (T ev σ' bl b Hnd Hin Hb Hp) as (b' & Hb' & Ht & Hs).
    unfold batch_tick, is_curing in Ht. unfold is_terminal in Hst.
    destruct (String.eqb_spec (b_status b) "Curing") as [E|_];
      [rewrite E in Hst; discriminate|].
    destruct (String.eqb_spec (b_status b) "Deep Curing") as [E|_];
      [rewrite E in Hst; discriminate|].
    simpl in Ht. subst b'. exact Hb'.
Qed.

Lemma curing_tick_exact_witness :
  heap (snd (process_batches [11%positive] sample_strains (batch_state curing_batch)))
    !! 11%positive
    = Some (OBatch (set_status "Finished" (set_seasons_remaining 0 curing_batch))) /\
  11%positive ∉ session_batches
    (snd (process_batches [11%positive] sample_strains (batch_state curing_batch))).
Proof.
  destruct (curing_tick_exact [11%positive] sample_strains (batch_state curing_batch)
              11%positive curing_batch) as [H _].
  - apply (bool_decide_unpack _). vm_compute. reflexivity.
  - apply (bool_decide_unpack _). vm_compute. reflexivity.
  - vm_compute. reflexivity.
  - apply (H eq_refl eq_refl []). vm_compute. reflexivity.
Defined.

(** ** Evaluating the loop body step by step *)

Lemma bind_step {A B} (m : M A) (k : A -> M B) σ x σ' :
  m σ = (inr x, σ') -> bind m k σ = k x σ'.
Proof. intros H. unfold bind. rewrite H. reflexivity. Qed.

Lemma load_batch_eval σ l b :
  heap σ !! l = Some (OBatch b) -> load_batch l σ = (inr b, σ).
Proof. intros H. unfold load_batch, load, bind. rewrite H. reflexivity. Qed.

Lemma load_strain_eval σ l s :
  heap σ !! l = Some (OStrain s) -> load_strain l σ = (inr s, σ).
Proof. intros H. unfold load_strain, load, bind. rewrite H. reflexivity. Qed.

Lemma update_batch_eval σ l b f :
  heap σ !! l = Some (OBatch b) ->
  update_batch l f σ = (inr tt, set_heap (<[l := OBatch (f b)]> (heap σ)) σ).
Proof. intros H. unfold update_batch. erewrite bind_step by (apply load_batch_eval; exact H). reflexivity. Qed.

Lemma update_strain_eval σ l s f :
  heap σ !! l = Some (OStrain s) ->
  update_strain l f σ = (inr tt, set_heap (<[l := OStrain (f s)]> (heap σ)) σ).
Proof. intros H. unfold update_strain. erewrite bind_step by (apply load_strain_eval; exact H). reflexivity. Qed.

(** [find_strain] changes nothing, and does not see a batch object
    replaced by another. *)
Lemma find_strain_state strains sid σ :
  find_strain strains sid σ = (fst (find_strain strains sid σ), σ).
Proof.
  induction strains as [|l rest IH]; simpl; [reflexivity|].
  unfold bind, load_strain, load, bind, ret, raise.
  destruct (heap σ !! l) as [[s| | | |]|]; simpl; try reflexivity.
  destruct (String.eqb (s_id s) sid); [reflexivity|exact IH].
Qed.

Lemma find_strain_batch_update strains sid σ bl b b' :
  heap σ !! bl = Some (OBatch b) ->
  fst (find_strain strains sid (set_heap (<[bl := OBatch b']> (heap σ)) σ)) =
  fst (find_strain strains sid σ).
Proof.
  intros Hb. induction strains as [|l rest IH]; simpl; [reflexivity|].
  unfold bind, load_strain, load, bind, ret, raise. simpl.
  destruct (decide (l = bl)) as [->|Hne].
  - rewrite lookup_insert_eq, Hb. reflexivity.
  - rewrite lookup_insert_ne by congruence.
    destruct (heap σ !! l) as [[s| | | |]|]; simpl; try reflexivity.
    destruct (String.eqb (s_id s) sid); [reflexivity|exact IH].
Qed.

Lemma find_strain_eval_after strains sid σ bl b b' tl :
  heap σ !! bl = Some (OBatch b) -> fst (find_strain strains sid σ) = inr tl ->
  find_strain strains sid (set_heap (<[bl := OBatch b']> (heap σ)) σ) =
  (inr tl, set_heap (<[bl := OBatch b']> (heap σ)) σ).
Proof.
  intros Hb Ht. rewrite find_strain_state. f_equal.
  erewrite find_strain_batch_update by exact Hb. exact Ht.
Qed.

Ltac lookup_tac :=
  simpl; repeat (rewrite lookup_insert_eq || (rewrite lookup_insert_ne by congruence));
  first [reflexivity | eassumption].

Ltac mstep :=
  erewrite bind_step;
  [| first [ apply load_batch_eval | apply load_strain_eval
           | apply update_batch_eval | apply update_strain_eval ]; lookup_tac ].

(** C5. When a batch's remaining counter reaches zero in the loop of
    [process_batches] (a curing batch with remaining at most 1, whose
    strain [tl] is found): a [Curing] batch becomes [Finished] and the
    strain's standard stock grows by the batch amount; a [Deep Curing]
    batch becomes [Destroyed] exactly when the draw [r = random()] is
    below 0.15 (an event of probability 0.15 for a uniform draw), and
    then no stock changes; otherwise it becomes [Finished] and the
    strain's artisanal stock grows by the batch amount. Nothing else in
    the heap changes. *)
Theorem curing_resolution strains events σ bl b tl t :
  heap σ !! bl = Some (OBatch b) ->
  b_seasons_remaining b <= 1 ->
  fst (find_strain strains (b_strain_id b) σ) = inr tl ->
  heap σ !! tl = Some (OStrain t) ->
  let b0 := set_seasons_remaining (b_seasons_remaining b - 1) b in
  let r := rnd (rng σ) (rpos (rng σ)) in
  (b_status b = "Curing" ->
   exists σ', process_batch strains events bl σ = (inr events, σ') /\
     heap σ' !! bl = Some (OBatch (set_status "Finished" b0)) /\
     heap σ' !! tl =
       Some (OStrain (set_stock_standard (s_stock_standard t + b_amount b) t)) /\
     forall l, l <> bl -> l <> tl -> heap σ' !! l = heap σ !! l) /\
  (b_status b = "Deep Curing" -> (r < 0.15)%Q ->
   exists σ', process_batch strains events bl σ
                = (inr (events ++ [("Batch " ++ b_id b ++ " rotted.")%string]), σ') /\
     heap σ' !! bl = Some (OBatch (set_status "Destroyed" b0)) /\
     forall l, l <> bl -> heap σ' !! l = heap σ !! l) /\
  (b_status b = "Deep Curing" -> ~ (r < 0.15)%Q ->
   exists σ', process_batch strains events bl σ = (inr events, σ') /\
     heap σ' !! bl = Some (OBatch (set_status "Finished" b0)) /\
     heap σ' !! tl =
       Some (OStrain (set_stock_artisanal (s_stock_artisanal t + b_amount b) t)) /\
     forall l, l <> bl -> l <> tl -> heap σ' !! l = heap σ !! l).
Proof.
  intros Hb Hrem Hfind Ht b0 r.
  assert (Hne : tl <> bl) by (intros ->; congruence).
  assert (Hz : (b_seasons_remaining b0 <=? 0) = true) by (simpl; apply Z.leb_le; lia).
  split; [|split].
  - intros Hst. unfold process_batch. mstep.
    assert (Hc : is_curing (b_status b) = true) by (rewrite Hst; reflexivity).
    rewrite Hc. mstep. mstep. fold b0. rewrite Hz.
    erewrite bind_step by (eapply find_strain_eval_after; [exact Hb | exact Hfind]).
    replace (String.eqb (b_status b0) "Deep Curing") with false by (simpl; rewrite Hst; reflexivity).
    mstep. mstep. mstep.
    eexists; split; [reflexivity|]. simpl.
    rewrite lookup_insert_eq. split; [reflexivity|].
    rewrite lookup_insert_ne by congruence. rewrite lookup_insert_eq. split; [reflexivity|].
    intros l Hl1 Hl2. rewrite !lookup_insert_ne by congruence. reflexivity.
  - intros Hst Hr. unfold process_batch. mstep.
    assert (Hc : is_curing (b_status b) = true) by (rewrite Hst; reflexivity).
    rewrite Hc. mstep. mstep. fold b0. rewrite Hz.
    erewrite bind_step by (eapply find_strain_eval_after; [exact Hb | exact Hfind]).
    replace (String.eqb (b_status b0) "Deep Curing") with true by (simpl; rewrite Hst; reflexivity).
    erewrite bind_step by reflexivity. cbn [rng set_heap]. fold r.
    replace (Qltb r 0.15) with true by (symmetry; apply Qltb_iff; exact Hr).
    mstep. eexists; split; [reflexivity|]. simpl.
    rewrite lookup_insert_eq. split; [reflexivity|].
    intros l Hl. rewrite !lookup_insert_ne by congruence. reflexivity.
  - intros Hst Hr. unfold process_batch. mstep.
    assert (Hc : is_curing (b_status b) = true) by (rewrite Hst; reflexivity).
    rewrite Hc. mstep. mstep. fold b0. rewrite Hz.
    erewrite bind_step by (eapply find_strain_eval_after; [exact Hb | exact Hfind]).
    replace (String.eqb (b_status b0) "Deep Curing") with true by (simpl; rewrite Hst; reflexivity).
    erewrite bind_step by reflexivity. cbn [rng set_heap]. fold r.
    replace (Qltb r 0.15) with false
      by (symmetry; apply not_true_iff_false; rewrite Qltb_iff; exact Hr).
    mstep. mstep. mstep.
    eexists; split; [reflexivity|]. simpl.
    rewrite lookup_insert_eq. split; [reflexivity|].
    rewrite lookup_insert_ne by congruence. rewrite lookup_insert_eq. split; [reflexivity|].
    intros l Hl1 Hl2. rewrite !lookup_insert_ne by congruence. reflexivity.
Qed.

Lemma curing_resolution_witness :
  exists σ', process_batch sample_strains [] 11%positive (batch_state curing_batch)
               = (inr [], σ') /\
    heap σ' !! 11%positive
      = Some (OBatch (set_status "Finished" (set_seasons_remaining (1 - 1) curing_batch))) /\
    heap σ' !! 1%positive
      = Some (OStrain (set_stock_standard (s_stock_standard lemon_sol + 100) lemon_sol)) /\
    forall l, l <> 11%positive -> l <> 1%positive ->
      heap σ' !! l = heap (batch_state curing_batch) !! l.
Proof.
  destruct (curing_resolution sample_strains [] (batch_state curing_batch) 11%positive
              curing_batch 1%positive lemon_sol) as [H _].
  - vm_compute. reflexivity.
  - vm_compute. intros H. discriminate H.
  - vm_compute. reflexivity.
  - vm_compute. reflexivity.
  - apply H. reflexivity.
Defined.

(** ** Curing batches left in the active list *)

Lemma keeps_settled_update_strain l l' f : keeps (fun h => settled h l) (update_strain l' f).
Proof.
  apply hoare_update_strain; [auto|]. intros h s Hs Hl' b.
  destruct (decide (l' = l)) as [->|Hne].
  - rewrite lookup_insert_eq. discriminate.
  - rewrite lookup_insert_ne by exact Hne. apply Hs.
Qed.

Lemma keeps_settled_update_batch l c f :
  c <> l -> keeps (fun h => settled h l) (update_batch c f).
Proof.
  intros Hne. apply hoare_update_batch; [auto|]. intros h b Hs Hc b'.
  rewrite lookup_insert_ne by exact Hne. apply Hs.
Qed.

Lemma process_batch_keeps_settled strains events c l :
  c <> l -> keeps (fun h => settled h l) (process_batch strains events c).
Proof.
  intros Hne. unfold process_batch.
  solve_keeps_with ltac:(first [ apply keeps_settled_update_strain
                               | apply keeps_settled_update_batch; assumption ]).
Qed.

Lemma batch_tick_settled b b' :
  batch_tick b b' -> is_curing (b_status b') = true -> 1 <= b_seasons_remaining b'.
Proof.
  unfold batch_tick. destruct (is_curing (b_status b)) eqn:Hc; [|intros ->; congruence].
  simpl. destruct (b_seasons_remaining b - 1 <=? 0) eqn:Hz.
  - destruct (String.eqb (b_status b) "Deep Curing");
      [intros [-> | ->] | intros ->]; discriminate.
  - intros -> _. simpl. apply Z.leb_gt in Hz. lia.
Qed.

Lemma process_batch_settles strains events c σ ev σ' :
  process_batch strains events c σ = (inr ev, σ') ->
  settled (heap σ') c /\
  (forall l, l <> c -> settled (heap σ) l -> settled (heap σ') l).
Proof.
  intros Hp. split.
  - destruct (heap σ !! c) as [[| b | | |]|] eqn:Hc;
      try (unfold process_batch, load_batch, load, bind, raise in Hp;
           rewrite Hc in Hp; discriminate).
    destruct (hoare_run _ _ _ _ _ _ _ (process_batch_step strains events c b) Hc Hp)
      as (b' & Hb' & Ht).
    intros b'' Hb''. rewrite Hb' in Hb''. injection Hb'' as <-.
    exact (batch_tick_settled b b' Ht).
  - intros l Hne Hs.
    exact (hoare_run _ _ _ _ _ _ _ (process_batch_keeps_settled strains events c l
             (not_eq_sym Hne)) Hs Hp).
Qed.

Lemma fold_batches_settles strains events xs σ ev σ' :
  fold_batches strains events xs σ = (inr ev, σ') ->
  forall l, l ∈ xs \/ settled (heap σ) l -> settled (heap σ') l.
Proof.
  revert events σ. induction xs as [|c xs IH]; intros events σ Hf l Hl; simpl in Hf.
  - injection Hf as _ <-. destruct Hl as [Hl|Hl]; [apply not_elem_of_nil in Hl; easy|exact Hl].
  - apply bind_inr_inv in Hf as (ev1 & σ1 & H1 & H2).
    destruct (process_batch_settles _ _ _ _ _ _ H1) as [Hc Hkeep].
    apply (IH _ _ H2). destruct (decide (l = c)) as [->|Hne]; [right; exact Hc|].
    destruct Hl as [Hl|Hl].
    + apply elem_of_cons in Hl as [Hl|Hl]; [contradiction|left; exact Hl].
    + right. exact (Hkeep l Hne Hl).
Qed.

(** C9 (counterexample). A new batch is [Fresh] with remaining 0
    ([create_batch]), and [process_batches] keeps such a batch in the
    active list with remaining 0. *)
Lemma fresh_batch_keeps_zero :
  (let r := create_batch 1%positive 100 1 7%positive (sample_state "s1" [] half_stream) in
   exists l b, fst r = inr l /\ heap (snd r) !! l = Some (OBatch b) /\
     b_status b = "Fresh" /\ b_seasons_remaining b = 0) /\
  (let σ' := snd (process_batches [11%positive] sample_strains
                    (sample_state "s1" [(11%positive, fresh_batch)] half_stream)) in
   session_batches σ' = [11%positive] /\
   heap σ' !! 11%positive = Some (OBatch fresh_batch) /\
   b_seasons_remaining fresh_batch = 0).
Proof.
  split.
  - vm_compute. eexists _, _. split; [reflexivity|]. split; [reflexivity|].
    split; reflexivity.
  - vm_compute. repeat split.
Qed.

(** C9 (amended). After a call of [process_batches] that returns
    normally, every batch in the active list is neither [Finished] nor
    [Destroyed], and every [Curing] or [Deep Curing] batch in it has
    remaining at least 1. (A [Fresh] batch, awaiting its curing method,
    stays with remaining 0.) *)
Theorem process_batches_active_settled batches strains σ ev σ' :
  process_batches batches strains σ = (inr ev, σ') ->
  forall l, l ∈ session_batches σ' ->
  exists b, heap σ' !! l = Some (OBatch b) /\ is_terminal (b_status b) = false /\
    (is_curing (b_status b) = true -> 1 <= b_seasons_remaining b).
Proof.
  intros Hp l Hl.
  destruct (process_batches_inv _ _ _ _ _ Hp) as (σ1 & Hf & Hh & Hs).
  destruct (proj1 (Hs l) Hl) as [Hin (b & Hb & Hnt)].
  exists b. rewrite Hh. split; [exact Hb|]. split; [exact Hnt|].
  exact (fold_batches_settles _ _ _ _ _ _ Hf l (or_introl Hin) b Hb).
Qed.

Lemma process_batches_active_settled_witness :
  exists b,
    heap (snd (process_batches [11%positive] sample_strains (batch_state deep_batch)))
      !! 11%positive = Some (OBatch b) /\
    is_terminal (b_status b) = false /\
    (is_curing (b_status b) = true -> 1 <= b_seasons_remaining b).
Proof.
  apply (process_batches_active_settled [11%positive] sample_strains (batch_state deep_batch) []).
  - vm_compute. reflexivity.
  - apply (bool_decide_unpack _). vm_compute. reflexivity.
Defined.

(** ** Breeding: what [breed] writes *)

Lemma hoare_exists {A B} (P : B -> gmap loc obj -> Prop) (m : M A) Q E :
  (forall y, hoare (P y) m Q E) -> hoare (fun h => exists y, P y h) m Q E.
Proof. intros H σ [y Hy]. exact (H y σ Hy). Qed.

Lemma hoare_bind_ro {A B} P (m : M A) (k : A -> M B) Q E (φ : A -> Prop) :
  heap_ro m -> (forall h, P h -> E h) ->
  (forall σ x σ', m σ = (inr x, σ') -> P (heap σ) -> φ x) ->
  (forall x, φ x -> hoare P (k x) Q E) -> hoare P (bind m k) Q E.
Proof.
  intros Hro HE Hφ Hk σ HP. unfold bind. specialize (Hro σ).
  destruct (m σ) as [[e|x] σ'] eqn:Hm; simpl in Hro.
  - rewrite Hro. exact (HE _ HP).
  - apply (Hk x (Hφ _ _ _ Hm HP) σ'). rewrite Hro. exact HP.
Qed.

Lemma load_strain_inr l σ s σ' :
  load_strain l σ = (inr s, σ') -> heap σ !! l = Some (OStrain s).
Proof.
  unfold load_strain, load, bind. destruct (heap σ !! l) as [[]|];
    unfold ret, raise; simpl; congruence.
Qed.
Lemma load_dict_inr l σ d σ' :
  load_dict l σ = (inr d, σ') -> heap σ !! l = Some (ODict d).
Proof.
  unfold load_dict, load, bind. destruct (heap σ !! l) as [[]|];
    unfold ret, raise; simpl; congruence.
Qed.
Lemma getitem_inr {V} (d : gmap string V) k σ v σ' :
  getitem d k σ = (inr v, σ') -> d !! k = Some v.
Proof. unfold getitem, ret, raise. destruct (d !! k); simpl; congruence. Qed.
Lemma choice_inr {A} (xs : list A) σ x σ' :
  choice xs σ = (inr x, σ') -> x ∈ xs.
Proof.
  unfold choice, bind, random_. simpl.
  destruct (nth_error xs _) eqn:Hn; unfold ret, raise; simpl; [|congruence].
  intros [= <- _]. apply list_elem_of_In. eapply nth_error_In. exact Hn.
Qed.

Section BreedFrame.
Variables (h0 : gmap loc obj) (parent_a parent_b : loc).

Lemma breed_inv_init : breed_inv h0 h0.
Proof.
  split; [reflexivity|]. intros l s Hl Hs. exfalso. apply Hl, elem_of_dom. eauto.
Qed.

Lemma breed_inv_alloc h l o :
  breed_inv h0 h -> l ∉ dom h ->
  (forall s, o = OStrain s -> s_genetics s ∉ dom h0) ->
  breed_inv h0 (<[l := o]> h) /\ l ∉ dom h0.
Proof.
  intros [H1 H2] Hl Ho.
  assert (Hl0 : l ∉ dom h0).
  { intros Hin. apply Hl, elem_of_dom. rewrite H1 by exact Hin. apply elem_of_dom, Hin. }
  split; [|exact Hl0]. split.
  - intros l' Hl'. rewrite lookup_insert_ne by (intros ->; contradiction). auto.
  - intros l' s Hl' Hs. destruct (decide (l = l')) as [->|Hne].
    + rewrite lookup_insert_eq in Hs. injection Hs as Hs. eauto.
    + rewrite lookup_insert_ne in Hs by exact Hne. eauto.
Qed.

Lemma breed_inv_dom h l : breed_inv h0 h -> l ∈ dom h0 -> l ∈ dom h.
Proof.
  intros [H1 _] Hl. apply elem_of_dom. rewrite H1 by exact Hl. apply elem_of_dom, Hl.
Qed.

Lemma new_strain_hoare n :
  hoare (breed_inv h0) (new_strain n)
    (fun c h => exists g, Jg h0 parent_a parent_b [] c g h) (breed_inv h0).
Proof.
  unfold new_strain.
  eapply hoare_bind; [apply keeps_ro, heap_ro_uuid|]. intros i.
  eapply hoare_bind.
  { apply (hoare_alloc _ (fun g h => breed_inv h0 h /\ (g ∉ dom h0) /\ h !! g = Some (ODict ∅))).
    intros h g Hi Hg. destruct (breed_inv_alloc h g (ODict ∅) Hi Hg) as [Hi' Hg0];
      [discriminate|]. split; [exact Hi'|]. split; [exact Hg0|]. apply lookup_insert_eq. }
  intros g.
  eapply hoare_bind.
  { apply (hoare_alloc _ (fun _ h => breed_inv h0 h /\ (g ∉ dom h0) /\ h !! g = Some (ODict ∅))).
    intros h p (Hi & Hg0 & Hg) Hp. destruct (breed_inv_alloc h p (OList []) Hi Hp) as [Hi' _];
      [discriminate|]. split; [exact Hi'|]. split; [exact Hg0|].
    rewrite lookup_insert_ne; [exact Hg|]. intros ->. apply Hp, elem_of_dom. eauto. }
  intros p. apply hoare_alloc. intros h c (Hi & Hg0 & Hg) Hc.
  destruct (breed_inv_alloc h c (OStrain (mkStrain n i g 0 0 1 "Unknown" p true false 0 0))
              Hi Hc) as [Hi' Hc0]; [intros s [= <-]; exact Hg0|].
  assert (Hcg : c <> g) by (intros ->; apply Hc, elem_of_dom; eauto).
  exists g, ∅. split; [exact Hi'|]. split; [exact Hc0|]. split; [exact Hg0|].
  split; [eexists; split; [apply lookup_insert_eq|reflexivity]|].
  split; [rewrite lookup_insert_ne by congruence; exact Hg|].
  split; [intros ???????? key ck Hk; rewrite lookup_empty in Hk; discriminate|].
  intros key Hk. apply not_elem_of_nil in Hk. contradiction.
Qed.


Lemma Jg_update_strain K c g f :
  (forall s, s_genetics (f s) = s_genetics s) ->
  hoare (Jg h0 parent_a parent_b K c g) (update_strain c f) (fun _ => Jg h0 parent_a parent_b K c g) (breed_inv h0).
Proof.
  intros Hf. apply hoare_update_strain; [intros h (dc & Hi & _); exact Hi|].
  intros h s (dc & [Hi1 Hi2] & Hc0 & Hg0 & (sc & Hc & Hsg) & Hg & Hgenes & Hkeys) Hs.
  rewrite Hc in Hs. injection Hs as <-.
  assert (Hcg : c <> g) by (intros ->; congruence).
  exists dc. split; [split|].
  - intros l Hl. rewrite lookup_insert_ne by (intros ->; contradiction). auto.
  - intros l s Hl Hs. destruct (decide (c = l)) as [<-|Hne].
    + rewrite lookup_insert_eq in Hs. injection Hs as <-. rewrite Hf, Hsg. exact Hg0.
    + rewrite lookup_insert_ne in Hs by exact Hne. eauto.
  - split; [exact Hc0|]. split; [exact Hg0|].
    split; [exists (f sc); split; [apply lookup_insert_eq|rewrite Hf; exact Hsg]|].
    split; [rewrite lookup_insert_ne by exact Hcg; exact Hg|].
    split; [exact Hgenes|exact Hkeys].
Qed.

Lemma Jg_alloc_list K c g xs :
  hoare (Jg h0 parent_a parent_b K c g) (alloc (OList xs)) (fun _ => Jg h0 parent_a parent_b K c g) (breed_inv h0).
Proof.
  apply hoare_alloc.
  intros h l (dc & Hi & Hc0 & Hg0 & (sc & Hc & Hsg) & Hg & Hgenes & Hkeys) Hl.
  destruct (breed_inv_alloc h l (OList xs) Hi Hl) as [Hi' _]; [discriminate|].
  assert (Hlc : l <> c) by (intros ->; apply Hl, elem_of_dom; eauto).
  assert (Hlg : l <> g) by (intros ->; apply Hl, elem_of_dom; eauto).
  exists dc. split; [exact Hi'|]. split; [exact Hc0|]. split; [exact Hg0|].
  split; [exists sc; rewrite lookup_insert_ne by congruence; split; [exact Hc|exact Hsg]|].
  split; [rewrite lookup_insert_ne by congruence; exact Hg|].
  split; [exact Hgenes|exact Hkeys].
Qed.

Lemma Jg_breed_gene K c g pa pb child key :
  (forall spa, h0 !! parent_a = Some (OStrain spa) -> pa = spa) ->
  (forall spb, h0 !! parent_b = Some (OStrain spb) -> pb = spb) ->
  s_genetics child = g ->
  hoare (Jg h0 parent_a parent_b K c g) (breed_gene pa pb child key) (fun _ => Jg h0 parent_a parent_b (key :: K) c g) (breed_inv h0).
Proof.
  intros Ha Hb Hch. unfold breed_gene.
  apply (hoare_exists (fun dc h => breed_inv h0 h /\ child_at h0 parent_a parent_b K c g dc h)).
  intros dc.
  assert (HE : forall h, breed_inv h0 h /\ child_at h0 parent_a parent_b K c g dc h ->
                 breed_inv h0 h) by tauto.
  apply (hoare_bind_ro _ _ _ _ _ (fun ga => forall spa da,
           h0 !! parent_a = Some (OStrain spa) -> h0 !! s_genetics spa = Some (ODict da) ->
           ga = da)); [apply heap_ro_load_dict|exact HE| |].
  { intros σ ga σ' Hm [[Hi1 _] _] spa da Hpa Hda. apply load_dict_inr in Hm.
    rewrite (Ha spa Hpa), Hi1 in Hm by (apply elem_of_dom; eauto). congruence. }
  intros ga Hga.
  apply (hoare_bind_ro _ _ _ _ _ (fun x => ga !! key = Some x));
    [apply heap_ro_getitem|exact HE|intros ???? _; eapply getitem_inr; eauto|].
  intros xa Hxa.
  apply (hoare_bind_ro _ _ _ _ _ (fun a => a ∈ [xa.1; xa.2]));
    [apply heap_ro_choice|exact HE|intros ???? _; eapply choice_inr; eauto|].
  intros a Hain.
  apply (hoare_bind_ro _ _ _ _ _ (fun gb => forall spb db,
           h0 !! parent_b = Some (OStrain spb) -> h0 !! s_genetics spb = Some (ODict db) ->
           gb = db)); [apply heap_ro_load_dict|exact HE| |].
  { intros σ gb σ' Hm [[Hi1 _] _] spb db Hpb Hdb. apply load_dict_inr in Hm.
    rewrite (Hb spb Hpb), Hi1 in Hm by (apply elem_of_dom; eauto). congruence. }
  intros gb Hgb.
  apply (hoare_bind_ro _ _ _ _ _ (fun y => gb !! key = Some y));
    [apply heap_ro_getitem|exact HE|intros ???? _; eapply getitem_inr; eauto|].
  intros xb Hxb.
  apply (hoare_bind_ro _ _ _ _ _ (fun b => b ∈ [xb.1; xb.2]));
    [apply heap_ro_choice|exact HE|intros ???? _; eapply choice_inr; eauto|].
  intros b Hbin.
  apply (hoare_bind_ro _ _ _ _ _ (fun gc => gc = dc));
    [apply heap_ro_load_dict|exact HE| |].
  { intros σ gc σ' Hm [_ (_ & _ & _ & Hg & _)]. apply load_dict_inr in Hm.
    rewrite Hch in Hm. congruence. }
  intros gc ->. apply hoare_store.
  intros h ([Hi1 Hi2] & Hc0 & Hg0 & (sc & Hc & Hsg) & Hg & Hgenes & Hkeys).
  rewrite Hch. assert (Hcg : c <> g) by (intros ->; congruence).
  exists (<[key := sorted_pair a b]> dc). split; [split|].
  - intros l Hl. rewrite lookup_insert_ne by (intros ->; contradiction). auto.
  - intros l s Hl Hs. destruct (decide (g = l)) as [<-|Hne].
    + rewrite lookup_insert_eq in Hs. discriminate.
    + rewrite lookup_insert_ne in Hs by exact Hne. eauto.
  - split; [exact Hc0|]. split; [exact Hg0|].
    split; [exists sc; rewrite lookup_insert_ne by congruence; split; [exact Hc|exact Hsg]|].
    split; [apply lookup_insert_eq|]. split.
    + intros spa spb da db Hpa Hda Hpb Hdb key' ck Hk.
      destruct (decide (key = key')) as [<-|Hne].
      * rewrite lookup_insert_eq in Hk. injection Hk as <-.
        exists xa, xb, a, b. rewrite <- (Hga spa da Hpa Hda), <- (Hgb spb db Hpb Hdb).
        repeat split; assumption.
      * rewrite lookup_insert_ne in Hk by exact Hne. exact (Hgenes _ _ _ _ Hpa Hda Hpb Hdb _ _ Hk).
    + intros key' Hk. apply elem_of_cons in Hk as [->|Hk].
      * rewrite lookup_insert_eq. eauto.
      * destruct (decide (key = key')) as [<-|Hne]; [rewrite lookup_insert_eq; eauto|].
        rewrite lookup_insert_ne by exact Hne. exact (Hkeys _ Hk).
Qed.

Lemma breed_hoare n ups :
  hoare (breed_inv h0) (breed parent_a parent_b n ups)
    (fun c h => exists g, Jg h0 parent_a parent_b ["aroma"; "resistance"; "structure"] c g h) (breed_inv h0).
Proof.
  unfold breed. eapply hoare_bind; [apply new_strain_hoare|]. intros c.
  apply hoare_exists. intros g.
  assert (HE : forall K h, Jg h0 parent_a parent_b K c g h -> breed_inv h0 h) by (intros K h (dc & Hi & _); exact Hi).
  apply (hoare_bind_ro _ _ _ _ _ (fun pa => forall spa,
           h0 !! parent_a = Some (OStrain spa) -> pa = spa));
    [apply heap_ro_load_strain|apply HE| |].
  { intros σ pa σ' Hm (dc & [Hi1 _] & _) spa Hpa. apply load_strain_inr in Hm.
    rewrite Hi1 in Hm by (apply elem_of_dom; eauto). congruence. }
  intros pa Ha.
  apply (hoare_bind_ro _ _ _ _ _ (fun pb => forall spb,
           h0 !! parent_b = Some (OStrain spb) -> pb = spb));
    [apply heap_ro_load_strain|apply HE| |].
  { intros σ pb σ' Hm (dc & [Hi1 _] & _) spb Hpb. apply load_strain_inr in Hm.
    rewrite Hi1 in Hm by (apply elem_of_dom; eauto). congruence. }
  intros pb Hb.
  eapply hoare_bind; [apply Jg_update_strain; reflexivity|]. intros [].
  eapply hoare_bind; [apply Jg_update_strain; reflexivity|]. intros [].
  eapply hoare_bind; [apply Jg_alloc_list|]. intros ids.
  eapply hoare_bind; [apply Jg_update_strain; reflexivity|]. intros [].
  apply (hoare_bind_ro _ _ _ _ _ (fun child => s_genetics child = g));
    [apply heap_ro_load_strain|apply HE| |].
  { intros σ child σ' Hm (dc & _ & _ & _ & (sc & Hc & Hsg) & _).
    apply load_strain_inr in Hm. congruence. }
  intros child Hch.
  eapply hoare_bind; [apply Jg_breed_gene; assumption|]. intros [].
  eapply hoare_bind; [apply Jg_breed_gene; assumption|]. intros [].
  eapply hoare_bind; [apply Jg_breed_gene; assumption|]. intros [].
  eapply hoare_bind; [apply Jg_update_strain; reflexivity|]. intros [].
  eapply hoare_bind; [apply Jg_update_strain; reflexivity|]. intros [].
  eapply hoare_bind; [apply Jg_update_strain; reflexivity|]. intros [].
  eapply hoare_bind.
  { destruct (existsb (String.eqb "seq") ups);
      [apply Jg_update_strain; reflexivity|apply hoare_ret; intros h H; exact H]. }
  intros []. apply hoare_ret. intros h H. exists g. exact H.
Qed.

End BreedFrame.

Lemma sorted_pair_cases a b : sorted_pair a b = (a, b) \/ sorted_pair a b = (b, a).
Proof. unfold sorted_pair. destruct (String.compare b a); auto. Qed.

(** C10. [breed] leaves every object that existed before the call as it
    was, whether it returns or raises: in particular both parent strains,
    their genetics dicts and their [parent_ids] lists. *)
Theorem breed_preserves_existing parent_a parent_b name_suggestion upgrades σ l v :
  heap σ !! l = Some v ->
  heap (snd (breed parent_a parent_b name_suggestion upgrades σ)) !! l = Some v.
Proof.
  intros Hl.
  pose proof (breed_hoare (heap σ) parent_a parent_b name_suggestion upgrades σ
                (breed_inv_init (heap σ))) as H.
  assert (Hd : l ∈ dom (heap σ)) by (apply elem_of_dom; eauto).
  destruct (breed parent_a parent_b name_suggestion upgrades σ) as [[e|c] σ']; simpl.
  - destruct H as [H1 _]. rewrite H1 by exact Hd. exact Hl.
  - destruct H as (g & dc & [H1 _] & _). rewrite H1 by exact Hd. exact Hl.
Qed.

Lemma breed_preserves_existing_witness :
  heap (snd (breed 1%positive 4%positive "Cross" [] (sample_state "s1" [] half_stream)))
    !! 1%positive = Some (OStrain lemon_sol).
Proof. apply breed_preserves_existing. vm_compute. reflexivity. Defined.

(** C7. If [breed] returns the child [c], the child's genetics dict has
    the three genes, and for every gene [key] of it the child's pair
    [ck] takes each symbol from the parents' pairs [x] (parent A) and
    [y] (parent B) for that gene; when both parents are homozygous
    [(t, t)] the child is [(t, t)]. *)
Theorem breed_child_alleles parent_a parent_b name_suggestion upgrades σ c σ'
    spa spb da db :
  heap σ !! parent_a = Some (OStrain spa) -> heap σ !! s_genetics spa = Some (ODict da) ->
  heap σ !! parent_b = Some (OStrain spb) -> heap σ !! s_genetics spb = Some (ODict db) ->
  breed parent_a parent_b name_suggestion upgrades σ = (inr c, σ') ->
  exists sc dc, heap σ' !! c = Some (OStrain sc) /\
    heap σ' !! s_genetics sc = Some (ODict dc) /\
    (forall key, key ∈ ["structure"; "resistance"; "aroma"] -> is_Some (dc !! key)) /\
    forall key ck, dc !! key = Some ck ->
      exists x y, da !! key = Some x /\ db !! key = Some y /\
        ck.1 ∈ [x.1; x.2; y.1; y.2] /\ ck.2 ∈ [x.1; x.2; y.1; y.2] /\
        forall t, x = (t, t) -> y = (t, t) -> ck = (t, t).
Proof.
  intros Hpa Hda Hpb Hdb Hrun.
  pose proof (breed_hoare (heap σ) parent_a parent_b name_suggestion upgrades σ
                (breed_inv_init (heap σ))) as H.
  rewrite Hrun in H.
  destruct H as (g & dc & _ & _ & _ & (sc & Hc & Hsg) & Hg & Hgenes & Hkeys).
  exists sc, dc. split; [exact Hc|]. split; [rewrite Hsg; exact Hg|]. split.
  { intros key Hk. apply Hkeys. set_solver. }
  intros key ck Hk.
  destruct (Hgenes _ _ _ _ Hpa Hda Hpb Hdb key ck Hk) as (x & y & a & b & Hx & Hy & Ha & Hb & ->).
  exists x, y. split; [exact Hx|]. split; [exact Hy|].
  destruct x as [x1 x2], y as [y1 y2]; simpl in *.
  split; [|split].
  - destruct (sorted_pair_cases a b) as [-> | ->]; simpl; set_solver.
  - destruct (sorted_pair_cases a b) as [-> | ->]; simpl; set_solver.
  - intros t [= -> ->] [= -> ->].
    assert (a = t) as -> by set_solver. assert (b = t) as -> by set_solver.
    destruct (sorted_pair_cases t t) as [-> | ->]; reflexivity.
Qed.

Lemma breed_child_alleles_witness :
  exists sc dc,
    heap (snd (breed 1%positive 4%positive "Cross" [] (sample_state "s1" [] half_stream)))
      !! 13%positive = Some (OStrain sc) /\
    heap (snd (breed 1%positive 4%positive "Cross" [] (sample_state "s1" [] half_stream)))
      !! s_genetics sc = Some (ODict dc) /\
    (forall key, key ∈ ["structure"; "resistance"; "aroma"] -> is_Some (dc !! key)) /\
    forall key ck, dc !! key = Some ck ->
      exists x y, genes ("T", "T") ("r", "r") ("L", "P") !! key = Some x /\
        genes ("t", "t") ("R", "R") ("C", "M") !! key = Some y /\
        ck.1 ∈ [x.1; x.2; y.1; y.2] /\ ck.2 ∈ [x.1; x.2; y.1; y.2] /\
        forall t, x = (t, t) -> y = (t, t) -> ck = (t, t).
Proof.
  apply (breed_child_alleles 1%positive 4%positive "Cross" [] (sample_state "s1" [] half_stream)
           13%positive _ lemon_sol musky_spice); [reflexivity..|].
  vm_compute. reflexivity.
Defined.

(** * Further properties of the code *)

Lemma load_dict_eval σ l d :
  heap σ !! l = Some (ODict d) -> load_dict l σ = (inr d, σ).
Proof. intros H. unfold load_dict, load, bind. rewrite H. reflexivity. Qed.


Lemma sorted_pair_comm a b : sorted_pair a b = sorted_pair b a.
Proof.
  unfold sorted_pair. rewrite (String.compare_antisym a b).
  destruct (String.compare b a) eqn:H; simpl; try reflexivity.
  apply String.compare_eq_iff in H as ->. reflexivity.
Qed.




(** The flavour [get_aroma_data] reports does not depend on the order of the two aroma alleles: the pairs (a, b) and (b, a) give the same result. *)
Theorem get_aroma_data_order σ σ' s d d' a b :
  heap σ !! s_genetics s = Some (ODict d) -> d !! "aroma" = Some (a, b) ->
  heap σ' !! s_genetics s = Some (ODict d') -> d' !! "aroma" = Some (b, a) ->
  fst (get_aroma_data s σ) = fst (get_aroma_data s σ').
Proof.
  intros Hd Ha Hd' Ha'. unfold get_aroma_data.
  erewrite bind_step by (apply load_dict_eval; exact Hd).
  erewrite (bind_step _ _ σ') by (apply load_dict_eval; exact Hd').
  unfold getitem. rewrite Ha, Ha'. simpl. rewrite sorted_pair_comm. reflexivity.
Qed.

(** [get_structure_label] and [get_growth_speed] agree: a strain is labelled Sativa (Tall) exactly when it grows in 30 days and Indica (Short) exactly when it grows in 60; both only read the state, and both raise the same exception on an ill-formed strain. *)
Theorem structure_label_speed s σ :
  match get_structure_label s σ, get_growth_speed s σ with
  | (inr lbl, σ1), (inr speed, σ2) =>
      σ1 = σ /\ σ2 = σ /\
      (lbl = "Sativa (Tall)" /\ speed = 30 \/ lbl = "Indica (Short)" /\ speed = 60)
  | (inl e1, σ1), (inl e2, σ2) => e1 = e2 /\ σ1 = σ /\ σ2 = σ
  | _, _ => False
  end.
Proof.
  unfold get_structure_label, get_growth_speed, load_dict, load, bind, getitem, ret, raise.
  destruct (heap σ !! s_genetics s) as [[| | |d|]|]; simpl; auto.
  destruct (d !! "structure") as [p|]; simpl; auto.
  destruct (in_pair "T" p); auto.
Qed.









(** The Sell Std and Sell Art buttons set the strain's stock to 0 before the lambda reads it, so they credit 0 and leave the session unchanged: the stock is lost. *)
Theorem sell_buttons_credit_nothing sl v ss σ s :
  heap σ !! sl = Some (OStrain s) ->
  sell_standard sl v (ss, σ) =
    (inr tt, (ss, set_heap (<[sl := OStrain (set_stock_standard 0 s)]> (heap σ)) σ)) /\
  sell_artisanal sl v (ss, σ) =
    (inr tt, (ss, set_heap (<[sl := OStrain (set_stock_artisanal 0 s)]> (heap σ)) σ)).
Proof.
  intros Hs. split.
  - unfold sell_standard, ui_bind, lift, get_session, put_session. simpl.
    rewrite (update_strain_eval σ sl s) by exact Hs. simpl.
    rewrite (load_strain_eval _ sl (set_stock_standard 0 s)) by (simpl; apply lookup_insert_eq).
    simpl. destruct ss; unfold set_funds; simpl. rewrite Z.add_0_r. reflexivity.
  - unfold sell_artisanal, ui_bind, lift, get_session, put_session. simpl.
    rewrite (update_strain_eval σ sl s) by exact Hs. simpl.
    rewrite (load_strain_eval _ sl (set_stock_artisanal 0 s)) by (simpl; apply lookup_insert_eq).
    simpl. destruct ss; unfold set_funds; simpl. rewrite Z.add_0_r. reflexivity.
Qed.

(** A Store click keeps the store invariant: funds never go negative, an upgrade is bought at most once, at most 4 rooms exist and room i has id i + 1; it touches neither the strains nor the batches, and only adds objects to the heap. *)
Theorem store_click_keeps_ok uid ss σ :
  store_ok ss (heap σ) ->
  exists ss' σ', store_click uid (ss, σ) = (inr tt, (ss', σ')) /\ store_ok ss' (heap σ') /\
    ss_strains ss' = ss_strains ss /\ session_batches σ' = session_batches σ /\
    (forall l v, heap σ !! l = Some v -> heap σ' !! l = Some v).
Proof.
  intros (Hf & Hnd & Hu & Hlen & Hids).
  unfold store_click.
  destruct (UPGRADES_DB uid) as [data|] eqn:Hdb;
    [|do 2 eexists; split; [reflexivity|]; repeat split; auto].
  unfold ui_bind, get_session, put_session, lift, ui_ret. simpl.
  destruct (String.eqb_spec uid "room") as [->|Hroom].
  - destruct (4 <=? Z.of_nat (length (ss_rooms ss))) eqn:H4;
      [do 2 eexists; split; [reflexivity|]; repeat split; auto|].
    destruct (5000 <=? ss_funds ss) eqn:H5;
      [|do 2 eexists; split; [reflexivity|]; repeat split; auto].
    apply Z.leb_gt in H4. apply Z.leb_le in H5.
    unfold alloc. simpl.
    set (r := fresh (dom (heap σ))).
    assert (Hr : r ∉ dom (heap σ)) by apply is_fresh.
    do 2 eexists. split; [reflexivity|]. simpl.
    split; [|split; [reflexivity|split; [reflexivity|]]].
    + split; [simpl; lia|]. split; [exact Hnd|]. split; [exact Hu|].
      split; [simpl; rewrite ?length_app; simpl; lia|].
      intros i rl Hi. apply lookup_app_Some in Hi as [Hi|[Hge Hi]].
      * destruct (Hids i rl Hi) as (ro & Hro & Hid). exists ro. split; [|exact Hid].
        rewrite lookup_insert_ne; [exact Hro|]. intros ->. apply Hr, elem_of_dom. eauto.
      * destruct (i - length (ss_rooms ss))%nat eqn:Hk; simpl in Hi; [|discriminate].
        injection Hi as <-. eexists. split; [apply lookup_insert_eq|]. simpl. lia.
    + intros l v Hl. rewrite lookup_insert_ne; [exact Hl|]. intros ->. apply Hr, elem_of_dom. eauto.
  - destruct (existsb (String.eqb uid) (ss_upgrades ss)) eqn:Hex;
      [do 2 eexists; split; [reflexivity|]; repeat split; auto|].
    destruct (upg_cost data <=? ss_funds ss) eqn:Hc;
      [|do 2 eexists; split; [reflexivity|]; repeat split; auto].
    apply Z.leb_le in Hc.
    assert (Huid : uid = "hepa" \/ uid = "seq").
    { unfold UPGRADES_DB in Hdb.
      destruct (String.eqb_spec uid "hepa"); [auto|].
      destruct (String.eqb_spec uid "seq"); [auto|].
      destruct (String.eqb_spec uid "room"); [contradiction|discriminate]. }
    assert (Hcost : 0 <= upg_cost data).
    { unfold UPGRADES_DB in Hdb. destruct Huid as [->| ->]; simpl in Hdb;
      injection Hdb as <-; simpl; lia. }
    do 2 eexists. split; [reflexivity|]. simpl.
    split; [|split; [reflexivity|split; [reflexivity|auto]]].
    split; [simpl; lia|]. split.
    + apply NoDup_app. split; [exact Hnd|]. split; [|apply NoDup_singleton].
      intros x Hx Hx'. apply list_elem_of_singleton in Hx' as ->.
      assert (existsb (String.eqb uid) (ss_upgrades ss) = true); [|congruence].
      apply existsb_exists. exists uid. split; [apply list_elem_of_In, Hx|apply String.eqb_refl].
    + split; [|split; [exact Hlen|exact Hids]].
      intros u Hin. apply elem_of_app in Hin as [Hin|Hin]; [auto|].
      apply list_elem_of_singleton in Hin as ->. exact Huid.
Qed.

Lemma batches_ro_bind {A B} (m : M A) (k : A -> M B) :
  batches_ro m -> (forall x, batches_ro (k x)) -> batches_ro (bind m k).
Proof.
  intros Hm Hk σ. unfold bind. specialize (Hm σ).
  destruct (m σ) as [[e|x] σ'] eqn:E; simpl in *; [exact Hm|].
  rewrite Hk. exact Hm.
Qed.
Lemma batches_ro_ret {A} (x : A) : batches_ro (ret x).
Proof. intros σ. reflexivity. Qed.
Lemma batches_ro_raise {A} e : batches_ro (raise (A:=A) e).
Proof. intros σ. reflexivity. Qed.
Lemma batches_ro_random : batches_ro random_.
Proof. intros σ. reflexivity. Qed.
Lemma batches_ro_load l : batches_ro (load l).
Proof. intros σ. unfold load. destruct (heap σ !! l); reflexivity. Qed.
Lemma batches_ro_store l o : batches_ro (store l o).
Proof. intros σ. reflexivity. Qed.

Create HintDb batches_ro.
#[export] Hint Resolve batches_ro_ret batches_ro_raise batches_ro_random batches_ro_load
  batches_ro_store : batches_ro.

Ltac solve_bro :=
  repeat first
    [ apply batches_ro_bind
    | solve [eauto with batches_ro]
    | progress unfold load_strain, load_room, load_dict, getitem, lookup_table, uniform,
        getattr_int, update_strain, generate_random_stats, get_growth_speed
    | match goal with
      | |- batches_ro (match ?x with _ => _ end) => destruct x
      | |- batches_ro (if ?b then _ else _) => destruct b
      | |- batches_ro (let '(_, _) := ?x in _) => destruct x
      | |- forall _, _ => intro
      end ].

Lemma batches_ro_find_strain strains sid : batches_ro (find_strain strains sid).
Proof. induction strains as [|l rest IH]; simpl; solve_bro. Qed.
#[export] Hint Resolve batches_ro_find_strain : batches_ro.






Lemma heap_ro_inr {A} (m : M A) σ x σ' :
  heap_ro m -> m σ = (inr x, σ') -> heap σ' = heap σ.
Proof. intros Hro Hm. specialize (Hro σ). rewrite Hm in Hro. exact Hro. Qed.

Lemma load_strain_inr_eq l σ s σ' :
  load_strain l σ = (inr s, σ') -> σ' = σ /\ heap σ !! l = Some (OStrain s).
Proof.
  unfold load_strain, load, bind. destruct (heap σ !! l) as [[]|];
    unfold ret, raise; simpl; intros H; try discriminate; injection H as -> ->; auto.
Qed.

Lemma update_strain_inr_at l f σ u σ' s :
  update_strain l f σ = (inr u, σ') -> heap σ !! l = Some (OStrain s) ->
  heap σ' !! l = Some (OStrain (f s)) /\ forall l', l' <> l -> heap σ' !! l' = heap σ !! l'.
Proof.
  unfold update_strain. intros H Hl. apply bind_inr_inv in H as (s' & σ1 & Hl' & H).
  apply load_strain_inr_eq in Hl' as [-> Hl']. rewrite Hl in Hl'. injection Hl' as <-.
  unfold store, modify in H. injection H as _ <-. simpl. split; [apply lookup_insert_eq|].
  intros l' Hne. apply lookup_insert_ne. congruence.
Qed.

Lemma alloc_inr o σ l σ' :
  alloc o σ = (inr l, σ') ->
  (l ∉ dom (heap σ)) /\ σ' = set_heap (<[l := o]> (heap σ)) σ.
Proof. unfold alloc. intros [= <- <-]. split; [apply is_fresh|reflexivity]. Qed.

Lemma breed_gene_inr_at pa pb child key σ u σ' :
  breed_gene pa pb child key σ = (inr u, σ') ->
  forall l, l <> s_genetics child -> heap σ' !! l = heap σ !! l.
Proof.
  unfold breed_gene. intros H.
  apply bind_inr_inv in H as (ga & σ1 & H1 & H). apply (heap_ro_inr _ _ _ _ (heap_ro_load_dict _)) in H1.
  apply bind_inr_inv in H as (xa & σ2 & H2 & H). apply (heap_ro_inr _ _ _ _ (heap_ro_getitem _ _)) in H2.
  apply bind_inr_inv in H as (a & σ3 & H3 & H). apply (heap_ro_inr _ _ _ _ (heap_ro_choice _)) in H3.
  apply bind_inr_inv in H as (gb & σ4 & H4 & H). apply (heap_ro_inr _ _ _ _ (heap_ro_load_dict _)) in H4.
  apply bind_inr_inv in H as (xb & σ5 & H5 & H). apply (heap_ro_inr _ _ _ _ (heap_ro_getitem _ _)) in H5.
  apply bind_inr_inv in H as (b & σ6 & H6 & H). apply (heap_ro_inr _ _ _ _ (heap_ro_choice _)) in H6.
  apply bind_inr_inv in H as (gc & σ7 & H7 & H). apply (heap_ro_inr _ _ _ _ (heap_ro_load_dict _)) in H7.
  unfold store, modify in H. injection H as _ <-. intros l Hl. simpl.
  rewrite lookup_insert_ne by congruence. congruence.
Qed.

Lemma new_strain_inr n σ c σ' :
  new_strain n σ = (inr c, σ') ->
  exists i g p,
    (c ∉ dom (heap σ)) /\ (g ∉ dom (heap σ)) /\ g <> c /\
    heap σ' !! c = Some (OStrain (mkStrain n i g 0 0 1 "Unknown" p true false 0 0)) /\
    heap σ' !! g = Some (ODict ∅) /\
    forall l, l ∈ dom (heap σ) -> heap σ' !! l = heap σ !! l.
Proof.
  unfold new_strain. intros H.
  apply bind_inr_inv in H as (i & σ1 & H1 & H). apply (heap_ro_inr _ _ _ _ heap_ro_uuid) in H1.
  apply bind_inr_inv in H as (g & σ2 & H2 & H). apply alloc_inr in H2 as [Hg ->].
  apply bind_inr_inv in H as (p & σ3 & H3 & H). apply alloc_inr in H3 as [Hp ->].
  apply alloc_inr in H as [Hc ->]. simpl in *. rewrite H1 in *.
  rewrite !dom_insert_L in Hc. rewrite dom_insert_L in Hp.
  exists i, g, p.
  split; [set_solver|]. split; [exact Hg|]. split; [set_solver|].
  split; [apply lookup_insert_eq|].
  split; [rewrite !lookup_insert_ne by set_solver; apply lookup_insert_eq|].
  intros l Hl. rewrite !lookup_insert_ne by set_solver. reflexivity.
Qed.

Lemma lookup_not_dom (h : gmap loc obj) l l' v : h !! l = Some v -> l' ∉ dom h -> l' <> l.
Proof. intros Hl Hn ->. apply Hn, elem_of_dom. eauto. Qed.

Lemma breed_run_child parent_a parent_b n ups σ c σ' spa spb :
  heap σ !! parent_a = Some (OStrain spa) -> heap σ !! parent_b = Some (OStrain spb) ->
  breed parent_a parent_b n ups σ = (inr c, σ') ->
  (c ∉ dom (heap σ)) /\
  exists sc, heap σ' !! c = Some (OStrain sc) /\
    s_name sc = n /\ s_generation sc = Z.max (s_generation spa) (s_generation spb) + 1 /\
    s_parents_text sc = (s_name spa ++ " x " ++ s_name spb)%string /\
    heap σ' !! s_parent_ids sc = Some (OList [s_id spa; s_id spb]) /\
    s_is_proven sc = false /\ s_potency sc = 0 /\ s_yield_amount sc = 0 /\
    s_is_sequenced sc = existsb (String.eqb "seq") ups /\
    s_stock_standard sc = 0 /\ s_stock_artisanal sc = 0.
Proof.
  intros Hpa Hpb H. unfold breed in H.
  apply bind_inr_inv in H as (c0 & σ1 & Hns & H).
  destruct (new_strain_inr _ _ _ _ Hns) as (i & g & p & Hc & Hg & Hgc & Hc1 & Hg1 & Hold).
  apply bind_inr_inv in H as (pa & σ2 & Hla & H). apply load_strain_inr_eq in Hla as [-> Hla].
  apply bind_inr_inv in H as (pb & σ3 & Hlb & H). apply load_strain_inr_eq in Hlb as [-> Hlb].
  rewrite Hold, Hpa in Hla by (apply elem_of_dom; eauto). injection Hla as <-.
  rewrite Hold, Hpb in Hlb by (apply elem_of_dom; eauto). injection Hlb as <-.
  clear Hold Hns.
  (* generation *)
  apply bind_inr_inv in H as ([] & σ4 & Hu & H).
  destruct (update_strain_inr_at _ _ _ _ _ _ Hu Hc1) as [Hc4 Ho4]. clear Hu.
  assert (Hg4 : heap σ4 !! g = Some (ODict ∅)) by (rewrite Ho4 by exact Hgc; exact Hg1).
  (* parents_text *)
  apply bind_inr_inv in H as ([] & σ5 & Hu & H).
  destruct (update_strain_inr_at _ _ _ _ _ _ Hu Hc4) as [Hc5 Ho5]. clear Hu.
  assert (Hg5 : heap σ5 !! g = Some (ODict ∅)) by (rewrite Ho5 by exact Hgc; exact Hg4).
  (* parent_ids list *)
  apply bind_inr_inv in H as (ids & σ6 & Ha & H). apply alloc_inr in Ha as [Hids ->].
  assert (Hic : ids <> c0) by (eapply lookup_not_dom; [exact Hc5|exact Hids]).
  assert (Hig : ids <> g) by (eapply lookup_not_dom; [exact Hg5|exact Hids]).
  assert (Hc6 := Hc5). rewrite <- (lookup_insert_ne (heap σ5) ids c0 (OList [s_id spa; s_id spb]))
    in Hc6 by congruence.
  assert (Hi6 : <[ids := OList [s_id spa; s_id spb]]> (heap σ5) !! ids =
                Some (OList [s_id spa; s_id spb])) by apply lookup_insert_eq.
  set (σ6 := set_heap (<[ids := OList [s_id spa; s_id spb]]> (heap σ5)) σ5) in H.
  change (<[ids := OList [s_id spa; s_id spb]]> (heap σ5)) with (heap σ6) in Hc6, Hi6.
  clearbody σ6.
  (* set parent_ids *)
  apply bind_inr_inv in H as ([] & σ7 & Hu & H).
  destruct (update_strain_inr_at _ _ _ _ _ _ Hu Hc6) as [Hc7 Ho7]. clear Hu.
  assert (Hi7 : heap σ7 !! ids = Some (OList [s_id spa; s_id spb])) by (rewrite Ho7 by exact Hic; exact Hi6).
  (* load child *)
  apply bind_inr_inv in H as (child & σ8 & Hl & H). apply load_strain_inr_eq in Hl as [-> Hl].
  rewrite Hc7 in Hl. injection Hl as <-.
  (* three genes *)
  apply bind_inr_inv in H as ([] & σ9 & Hb & H).
  pose proof (breed_gene_inr_at _ _ _ _ _ _ _ Hb) as Ho9. simpl in Ho9. clear Hb.
  apply bind_inr_inv in H as ([] & σ10 & Hb & H).
  pose proof (breed_gene_inr_at _ _ _ _ _ _ _ Hb) as Ho10. simpl in Ho10. clear Hb.
  apply bind_inr_inv in H as ([] & σ11 & Hb & H).
  pose proof (breed_gene_inr_at _ _ _ _ _ _ _ Hb) as Ho11. simpl in Ho11. clear Hb.
  assert (Hc11 : heap σ11 !! c0 = Some (OStrain (set_parent_ids ids
             (set_parents_text (s_name spa ++ " x " ++ s_name spb)
               (set_generation (Z.max (s_generation spa) (s_generation spb) + 1)
                  (mkStrain n i g 0 0 1 "Unknown" p true false 0 0)))))).
  { rewrite Ho11, Ho10, Ho9 by congruence. exact Hc7. }
  assert (Hi11 : heap σ11 !! ids = Some (OList [s_id spa; s_id spb])).
  { rewrite Ho11, Ho10, Ho9 by congruence. exact Hi7. }
  clear Ho9 Ho10 Ho11.
  (* is_proven, potency, yield *)
  apply bind_inr_inv in H as ([] & σ12 & Hu & H).
  destruct (update_strain_inr_at _ _ _ _ _ _ Hu Hc11) as [Hc12 Ho12]. clear Hu.
  apply bind_inr_inv in H as ([] & σ13 & Hu & H).
  destruct (update_strain_inr_at _ _ _ _ _ _ Hu Hc12) as [Hc13 Ho13]. clear Hu.
  apply bind_inr_inv in H as ([] & σ14 & Hu & H).
  destruct (update_strain_inr_at _ _ _ _ _ _ Hu Hc13) as [Hc14 Ho14]. clear Hu.
  assert (Hi14 : heap σ14 !! ids = Some (OList [s_id spa; s_id spb])).
  { rewrite Ho14, Ho13, Ho12 by exact Hic. exact Hi11. }
  (* sequencer *)
  apply bind_inr_inv in H as ([] & σ15 & Hu & H).
  unfold ret in H. injection H as <- <-.
  split; [exact Hc|].
  destruct (existsb (String.eqb "seq") ups) eqn:Hseq.
  - destruct (update_strain_inr_at _ _ _ _ _ _ Hu Hc14) as [Hc15 Ho15].
    eexists. split; [exact Hc15|]. simpl. rewrite Ho15 by exact Hic.
    repeat split; auto.
  - unfold ret in Hu. injection Hu as <-.
    eexists. split; [exact Hc14|]. simpl. repeat split; auto.
Qed.


Lemma find_strain_by_name_inr strains nm σ l σ' :
  find_strain_by_name strains nm σ = (inr l, σ') ->
  σ' = σ /\ exists s, heap σ !! l = Some (OStrain s) /\ s_name s = nm.
Proof.
  induction strains as [|l0 rest IH]; simpl; [discriminate|].
  intros H. apply bind_inr_inv in H as (s & σ1 & Hl & H).
  apply load_strain_inr_eq in Hl as [-> Hl].
  destruct (String.eqb_spec (s_name s) nm) as [Hn|Hn]; [|exact (IH H)].
  unfold ret in H. injection H as -> ->. eauto.
Qed.

Lemma breed_inr_keeps parent_a parent_b n ups σ c σ' l v :
  breed parent_a parent_b n ups σ = (inr c, σ') ->
  heap σ !! l = Some v -> heap σ' !! l = Some v.
Proof.
  intros Hb Hl.
  pose proof (breed_hoare (heap σ) parent_a parent_b n ups σ (breed_inv_init (heap σ))) as H.
  rewrite Hb in H. destruct H as (g & dc & [H1 _] & _).
  rewrite H1 by (apply elem_of_dom; eauto). exact Hl.
Qed.

Ltac ui_case :=
  match goal with
  | |- context [find_strain_by_name ?a ?b ?c] =>
      let E := fresh "E" in destruct (find_strain_by_name a b c) as [[?e|?x] ?σ] eqn:E
  | |- context [breed ?a ?b ?c ?d ?e] =>
      let E := fresh "E" in destruct (breed a b c d e) as [[?e|?x] ?σ] eqn:E
  end; cbn -[find_strain_by_name breed].

(** The Cross button charges 200 when the funds are at least 200, whether or not the cross then succeeds, and does nothing at all below 200. *)
Theorem cross_click_charges p1 p2 name ss σ r w' :
  cross_click p1 p2 name (ss, σ) = (r, w') ->
  ss_funds w'.1 = (if ss_funds ss <? 200 then ss_funds ss else ss_funds ss - 200) /\
  (ss_funds ss < 200 -> r = inr tt /\ w' = (ss, σ)).
Proof.
  unfold cross_click, ui_bind, get_session, put_session, lift, ui_ret. cbn -[find_strain_by_name breed].
  destruct (ss_funds ss <? 200) eqn:Hf.
  - intros [= <- <-]. split; [reflexivity|auto].
  - apply Z.ltb_ge in Hf.
    repeat (ui_case; [intros [= <- <-]; split; [reflexivity|lia]|]).
    intros [= <- <-]. split; [reflexivity|lia].
Qed.

(** A Cross click that completes charges 200 and appends one new strain to the strain list: it has the given name, the parent names joined by x and is_proven False, and the click keeps every existing object. *)
Theorem cross_click_child p1 p2 name ss σ w' :
  200 <= ss_funds ss ->
  cross_click p1 p2 name (ss, σ) = (inr tt, w') ->
  exists c sc, w'.1 = set_strains (ss_strains ss ++ [c]) (set_funds (ss_funds ss - 200) ss) /\
    (c ∉ dom (heap σ)) /\ heap w'.2 !! c = Some (OStrain sc) /\
    s_name sc = name /\ s_parents_text sc = (p1 ++ " x " ++ p2)%string /\
    s_is_proven sc = false /\
    (forall l v, heap σ !! l = Some v -> heap w'.2 !! l = Some v).
Proof.
  intros Hf. unfold cross_click, ui_bind, get_session, put_session, lift, ui_ret.
  cbn -[find_strain_by_name breed].
  replace (ss_funds ss <? 200) with false by (symmetry; apply Z.ltb_ge; exact Hf).
  ui_case; [discriminate|]. rename x into pa, E into Ha.
  ui_case; [discriminate|]. rename x into pb, E into Hb.
  ui_case; [discriminate|]. rename x into c, E into Hbr.
  intros [= <-].
  apply find_strain_by_name_inr in Ha as [-> (spa & Hpa & Hna)].
  apply find_strain_by_name_inr in Hb as [-> (spb & Hpb & Hnb)].
  destruct (breed_run_child _ _ _ _ _ _ _ _ _ Hpa Hpb Hbr)
    as (Hc & sc & Hsc & Hname & _ & Hpt & _ & Hpr & _).
  exists c, sc. simpl. split; [reflexivity|]. split; [exact Hc|]. split; [exact Hsc|].
  split; [exact Hname|]. split; [rewrite Hpt, Hna, Hnb; reflexivity|].
  split; [exact Hpr|]. intros l v Hl. eapply breed_inr_keeps; eauto.
Qed.

Lemma load_list_eval σ l xs :
  heap σ !! l = Some (OList xs) -> load_list l σ = (inr xs, σ).
Proof. intros H. unfold load_list, load, bind. rewrite H. reflexivity. Qed.

Lemma string_app_nil_r (s : string) : (s ++ "")%string = s.
Proof.
  induction s as [|c s IH]; [reflexivity|].
  change (String c (s ++ "") = String c s)%string. rewrite IH. reflexivity.
Qed.

Lemma string_app_assoc (a b c : string) : (a ++ (b ++ c))%string = ((a ++ b) ++ c)%string.
Proof.
  induction a as [|x a IH]; [reflexivity|].
  change (String x (a ++ (b ++ c)) = String x ((a ++ b) ++ c))%string. rewrite IH. reflexivity.
Qed.

Lemma strain_map_from_spec σ m all :
  Forall (fun l => exists s, heap σ !! l = Some (OStrain s)) all ->
  exists m', strain_map_from m all σ = (inr m', σ) /\
    forall k, (m' !! k = m !! k /\
               forall l s, l ∈ all -> heap σ !! l = Some (OStrain s) -> s_id s <> k) \/
              (exists l s, l ∈ all /\ heap σ !! l = Some (OStrain s) /\ s_id s = k /\
                           m' !! k = Some l).
Proof.
  intros Hall. revert m. induction Hall as [|l rest [s Hs] Hrest IH]; intros m.
  - exists m. split; [reflexivity|]. intros k. left. split; [reflexivity|].
    intros l s Hl. set_solver.
  - simpl. erewrite bind_step by (apply load_strain_eval; exact Hs).
    destruct (IH (<[s_id s := l]> m)) as (m' & Hm' & Hk).
    exists m'. split; [exact Hm'|]. intros k.
    destruct (Hk k) as [[Hkm Hno]|(l' & s' & Hl' & Hs' & Hid & Hm'k)].
    + destruct (String.eq_dec (s_id s) k) as [<-|Hne].
      * right. exists l, s. rewrite lookup_insert_eq in Hkm. set_solver.
      * left. rewrite lookup_insert_ne in Hkm by exact Hne. split; [exact Hkm|].
        intros l0 s0 Hl0 Hs0. apply elem_of_cons in Hl0 as [->|Hl0].
        -- rewrite Hs in Hs0. injection Hs0 as <-. exact Hne.
        -- exact (Hno l0 s0 Hl0 Hs0).
    + right. exists l', s'. set_solver.
Qed.

(** When no strain of all_strains has one of the target's parent ids and the depth is below max_depth, [get_lineage_text] writes the target's line followed by one [Unknown] line per parent id. *)
Theorem get_lineage_text_unknown_parents σ target all t pids depth max_depth :
  heap σ !! target = Some (OStrain t) ->
  heap σ !! s_parent_ids t = Some (OList pids) ->
  Forall (fun l => exists s, heap σ !! l = Some (OStrain s) /\ s_id s ∉ pids) all ->
  depth < max_depth ->
  get_lineage_text target all depth max_depth σ =
    (inr (lineage_line (s_name t) depth ++
          repeat_str (length pids)
            (repeat_str (Z.to_nat depth) "    " ++ "    â””â”€â”€ [Unknown]" ++ nl))%string, σ).
Proof.
  intros Ht Hp Hall Hd. unfold get_lineage_text.
  destruct (Z.to_nat (max_depth - depth)) as [|fuel] eqn:Hf; [lia|]. simpl lineage.
  erewrite bind_step by (apply load_strain_eval; exact Ht). cbv beta.
  replace (max_depth <=? depth) with false by (symmetry; apply Z.leb_gt; lia).
  destruct (strain_map_from_spec σ ∅ all) as (m' & Hm' & Hk).
  { eapply Forall_impl; [exact Hall|]. intros l (s & Hs & _). eauto. }
  erewrite bind_step by exact Hm'.
  erewrite bind_step by (apply load_list_eval; exact Hp).
  assert (Hnone : forall pid, pid ∈ pids -> m' !! pid = None).
  { intros pid Hpid. destruct (Hk pid) as [[-> _]|(l & s & Hl & Hs & Hid & _)];
      [reflexivity|].
    rewrite Forall_forall in Hall.
    destruct (Hall l Hl) as (s' & Hs' & Hn). rewrite Hs in Hs'. injection Hs' as <-.
    subst pid. contradiction. }
  change (lineage_line (s_name t) depth) with
    (repeat_str (Z.to_nat depth) "    " ++ (if (0 <? depth)%Z then "â””â”€â”€ " else "") ++ s_name t ++ nl)%string.
  generalize (repeat_str (Z.to_nat depth) "    " ++ (if (0 <? depth)%Z then "â””â”€â”€ " else "") ++ s_name t ++ nl)%string.
  clear Hp Hall Hk Hm'.
  induction pids as [|pid rest IH]; intros acc.
  - simpl. rewrite string_app_nil_r. reflexivity.
  - cbn [length repeat_str]. rewrite (Hnone pid) by set_solver.
    rewrite IH by (intros; apply Hnone; set_solver).
    rewrite (string_app_assoc acc _ (repeat_str (length rest) _)). reflexivity.
Qed.

Lemma lineage_self_parent_chain σ target all t n depth max_depth :
  heap σ !! target = Some (OStrain t) ->
  heap σ !! s_parent_ids t = Some (OList [s_id t]) ->
  target ∈ all ->
  Forall (fun l => exists s, heap σ !! l = Some (OStrain s) /\
                             (s_id s = s_id t -> l = target)) all ->
  n = Z.to_nat (max_depth - depth) ->
  lineage n target all depth max_depth σ = (inr (lineage_chain (s_name t) depth n), σ).
Proof.
  intros Ht Hp Hin Hall. revert depth.
  induction n as [|n IH]; intros depth Hn.
  - simpl lineage. erewrite bind_step by (apply load_strain_eval; exact Ht). cbv beta.
    replace (max_depth <=? depth) with true by (symmetry; apply Z.leb_le; lia).
    reflexivity.
  - simpl lineage. erewrite bind_step by (apply load_strain_eval; exact Ht). cbv beta.
    replace (max_depth <=? depth) with false by (symmetry; apply Z.leb_gt; lia).
    destruct (strain_map_from_spec σ ∅ all) as (m' & Hm' & Hk).
    { eapply Forall_impl; [exact Hall|]. intros l (s & Hs & _). eauto. }
    erewrite bind_step by exact Hm'.
    erewrite bind_step by (apply load_list_eval; exact Hp).
    assert (Hmt : m' !! s_id t = Some target).
    { destruct (Hk (s_id t)) as [[_ Hno]|(l & s & Hl & Hs & Hid & Hml)].
      - exfalso. exact (Hno target t Hin Ht eq_refl).
      - rewrite Forall_forall in Hall. destruct (Hall l Hl) as (s' & Hs' & Hlt).
        rewrite Hs in Hs'. injection Hs' as <-. rewrite (Hlt Hid) in Hml. exact Hml. }
    cbv beta iota. rewrite Hmt.
    erewrite bind_step by (apply IH; lia).
    reflexivity.
Qed.

(** A strain that lists itself as its only parent does not make [get_lineage_text] loop: the text is the strain's line repeated once per depth from depth to max_depth, indented one level further each time. *)
Theorem get_lineage_text_self_parent σ target all t depth max_depth :
  heap σ !! target = Some (OStrain t) ->
  heap σ !! s_parent_ids t = Some (OList [s_id t]) ->
  target ∈ all ->
  Forall (fun l => exists s, heap σ !! l = Some (OStrain s) /\
                             (s_id s = s_id t -> l = target)) all ->
  get_lineage_text target all depth max_depth σ =
    (inr (lineage_chain (s_name t) depth (Z.to_nat (max_depth - depth))), σ).
Proof. intros. unfold get_lineage_text. apply lineage_self_parent_chain; auto. Qed.

(** ** The properties above at concrete inputs *)


Lemma get_aroma_data_order_witness :
  fst (get_aroma_data lemon_sol (sample_state "s1" [] half_stream)) =
  fst (get_aroma_data lemon_sol
         (set_heap (<[2%positive := ODict (genes ("T", "T") ("r", "r") ("P", "L"))]>
                      (heap (sample_state "s1" [] half_stream)))
                   (sample_state "s1" [] half_stream))).
Proof.
  apply (get_aroma_data_order _ _ lemon_sol (genes ("T", "T") ("r", "r") ("L", "P"))
           (genes ("T", "T") ("r", "r") ("P", "L")) "L" "P"); reflexivity.
Defined.







Lemma sell_buttons_credit_nothing_witness :
  let ss := mkSession 1000 1 [] [7%positive] sample_strains in
  let σ := sample_state "s1" [] half_stream in
  sell_standard 1%positive 4.5%Q (ss, σ) =
    (inr tt, (ss, set_heap (<[1%positive := OStrain (set_stock_standard 0 lemon_sol)]> (heap σ)) σ)) /\
  sell_artisanal 1%positive 4.5%Q (ss, σ) =
    (inr tt, (ss, set_heap (<[1%positive := OStrain (set_stock_artisanal 0 lemon_sol)]> (heap σ)) σ)).
Proof.
  intros ss σ. apply sell_buttons_credit_nothing. reflexivity.
Defined.

Lemma store_click_keeps_ok_witness :
  let ss := mkSession 6000 1 [] [7%positive] sample_strains in
  let σ := sample_state "s1" [] half_stream in
  exists ss' σ', store_click "room" (ss, σ) = (inr tt, (ss', σ')) /\ store_ok ss' (heap σ') /\
    ss_strains ss' = ss_strains ss /\ session_batches σ' = session_batches σ /\
    (forall l v, heap σ !! l = Some v -> heap σ' !! l = Some v).
Proof.
  intros ss σ. apply store_click_keeps_ok.
  split; [simpl; lia|]. split; [constructor|]. split; [intros u Hu; simpl in Hu; set_solver|].
  split; [simpl; lia|].
  intros [|i] rl Hi; [|destruct i; discriminate].
  injection Hi as <-. eexists. split; reflexivity.
Defined.


Lemma cross_click_charges_witness :
  let ss := mkSession 150 1 [] [7%positive] sample_strains in
  let σ := sample_state "s1" [] half_stream in
  ss_funds (snd (cross_click "Lemon Sol" "Musky Spice" "Cross" (ss, σ))).1
    = (if ss_funds ss <? 200 then ss_funds ss else ss_funds ss - 200) /\
  (ss_funds ss < 200 -> fst (cross_click "Lemon Sol" "Musky Spice" "Cross" (ss, σ)) = inr tt /\
                        snd (cross_click "Lemon Sol" "Musky Spice" "Cross" (ss, σ)) = (ss, σ)).
Proof.
  intros ss σ. apply (cross_click_charges "Lemon Sol" "Musky Spice" "Cross" ss σ).
  vm_compute. reflexivity.
Defined.

Lemma cross_click_child_witness :
  let ss := mkSession 6000 1 [] [7%positive] sample_strains in
  let σ := sample_state "s1" [] half_stream in
  let w' := snd (cross_click "Lemon Sol" "Musky Spice" "Cross" (ss, σ)) in
  exists c sc, w'.1 = set_strains (ss_strains ss ++ [c]) (set_funds (ss_funds ss - 200) ss) /\
    (c ∉ dom (heap σ)) /\ heap w'.2 !! c = Some (OStrain sc) /\
    s_name sc = "Cross" /\ s_parents_text sc = ("Lemon Sol" ++ " x " ++ "Musky Spice")%string /\
    s_is_proven sc = false /\
    (forall l v, heap σ !! l = Some v -> heap w'.2 !! l = Some v).
Proof.
  intros ss σ w'. apply cross_click_child.
  - simpl. lia.
  - vm_compute. reflexivity.
Defined.

Lemma get_lineage_text_unknown_parents_witness :
  get_lineage_text 8%positive [8%positive] 0 3 (sample_state "s1" [] half_stream) =
    (inr (lineage_line "Seed-101" 0 ++
          repeat_str 2 (repeat_str 0 "    " ++ "    â””â”€â”€ [Unknown]" ++ nl))%string,
     sample_state "s1" [] half_stream).
Proof.
  apply (get_lineage_text_unknown_parents (sample_state "s1" [] half_stream) 8%positive
           [8%positive] seed_pack ["s1"; "s2"]%string).
  - reflexivity.
  - reflexivity.
  - constructor; [|constructor]. exists seed_pack. split; [reflexivity|].
    apply (bool_decide_unpack _). vm_compute. reflexivity.
  - lia.
Defined.

Lemma get_lineage_text_self_parent_witness :
  let σ := sample_state "s1" [] half_stream in
  let σ1 := set_heap (<[10%positive := OList ["s3"]%string]> (heap σ)) σ in
  get_lineage_text 8%positive sample_strains 0 2 σ1 =
    (inr (lineage_chain "Seed-101" 0 2), σ1).
Proof.
  intros σ σ1.
  apply (get_lineage_text_self_parent σ1 8%positive sample_strains seed_pack 0 2).
  - reflexivity.
  - reflexivity.
  - apply (bool_decide_unpack _). vm_compute. reflexivity.
  - repeat constructor; eexists; (split; [reflexivity|]); simpl; congruence.
Defined.
